(** * video-reencode-test: the worker protocol and the run orchestrator

    A shallow embedding of the two TypeScript sources of the repository:

    - the FFmpeg web worker ([ensureLoaded] and [self.onmessage]), over an
      abstract FFmpeg engine given as a type class;
    - the React component [App]: the pending-promise table, the handler of
      the worker's messages, [workerConcat], [workerReencodeMp4] and
      [runAutomated].

    Conventions.  A JavaScript exception is the [Throw] outcome carrying the
    message of the error; for the exceptions the camera and the file system
    raise, which are objects of the browser's making and are only ever
    logged, it carries the string [String(e)] gives.  A promise that is
    never settled is [Hang].  One
    invocation of a message handler runs to completion before the next one
    starts (the worker serves one request at a time, and the page sends the
    worker nothing but [load] before the worker has announced [loaded]).
    React state setters take effect at once.  An [ArrayBuffer] is the list
    of its bytes.  The readings of [performance.now()] are binary64
    numbers, and so is their difference. *)

From Stdlib Require Import ZArith QArith Qabs Qround Lqa String Ascii List Floats.
From stdpp Require Import base gmap strings list pretty.
Import ListNotations.
Open Scope string_scope.
Open Scope list_scope.
Open Scope nat_scope.

(* [set_solver] clears hypotheses that its own simplification has removed. *)
Set Warnings "-clear-no-such-hyp".

Abbreviation bytes := (list Byte.byte).

(** ** Outcomes and the state-and-exception monad *)

Inductive outcome (A : Type) : Type :=
| Ok (a : A)
| Throw (message : string)
| Hang.
Arguments Ok {A} a.
Arguments Throw {A} message.
Arguments Hang {A}.

Definition is_ok {A} (o : outcome A) : bool :=
  match o with Ok _ => true | _ => false end.

Definition M (S A : Type) : Type := S → outcome A * S.

Definition ret {S A} (a : A) : M S A := λ s, (Ok a, s).

Definition bind {S A B} (m : M S A) (k : A → M S B) : M S B :=
  λ s, match m s with
       | (Ok a, s') => k a s'
       | (Throw e, s') => (Throw e, s')
       | (Hang, s') => (Hang, s')
       end.

Definition throw {S A} (e : string) : M S A := λ s, (Throw e, s).

(** [try m catch h]: a thrown error is handed to [h]; a computation that
    never completes is not caught. *)
Definition catch {S A} (m : M S A) (h : string → M S A) : M S A :=
  λ s, match m s with
       | (Throw e, s') => h e s'
       | r => r
       end.

Definition gets {S A} (f : S → A) : M S A := λ s, (Ok (f s), s).
Definition modify {S} (f : S → S) : M S unit := λ s, (Ok tt, f s).

Global Instance M_ret {S} : MRet (M S) := λ A, @ret S A.
Global Instance M_bind {S} : MBind (M S) := λ A B k m, @bind S A B m k.
Global Instance M_fmap {S} : FMap (M S) := λ A B f m, bind m (λ a, ret (f a)).

(** [for (const x of xs) await f(x)] *)
Fixpoint forEach {S A} (f : A → M S unit) (xs : list A) : M S unit :=
  match xs with
  | [] => ret tt
  | x :: xs' => f x ;; forEach f xs'
  end.

(** ** Messages between the page and the worker *)

Record SegmentInput := { seg_name : string; seg_data : bytes }.

(** A request as the worker receives it: an object with a [type] tag.  The
    fields a request type does not use are ignored by the handler. *)
Record WorkerRequest := {
  req_type : string;
  req_segments : list SegmentInput;
  req_inputName : string;
  req_inputData : bytes;
  req_outputName : string;
  req_args : list string;
  req_runId : option string;
  req_phase : option string;
}.

Inductive WorkerResponse :=
| Loaded
| Progress (message : string)
| Result (outputName mimeType : string) (data : bytes)
         (runId phase : option string)
| Error (message : string) (runId phase : option string).

Definition is_loaded_msg (m : WorkerResponse) : bool :=
  match m with Loaded => true | _ => false end.

Definition is_terminal (m : WorkerResponse) : bool :=
  match m with Result _ _ _ _ _ | Error _ _ _ => true | _ => false end.

(** ** The FFmpeg engine, as the worker uses it

    [E] is everything outside the worker's own variables: the FFmpeg
    instance with its in-memory file system, and the network [toBlobURL]
    fetches from.  Every call of the FFmpeg instance also yields the lines
    the engine logged while it ran. *)

Record LoadConfig := {
  coreURL : string;
  wasmURL : string;
  workerURL : option string;
}.

Class Engine (E : Type) := {
  toBlobURL : string → string → E → outcome string * E;
  ffmpeg_load : LoadConfig → E → outcome unit * list string * E;
  ffmpeg_writeFile : string → bytes → E → outcome unit * list string * E;
  ffmpeg_exec : list string → E → outcome unit * list string * E;
  ffmpeg_readFile : string → E → outcome bytes * list string * E;
  ffmpeg_deleteFile : string → E → outcome unit * list string * E;
  (** the names of the files the engine holds *)
  ffmpeg_files : E → gset string;
}.

(** What the cleanup of the worker relies on from FFmpeg's file system: a
    [deleteFile] that returns has removed the file it names, and nothing
    else.  [exec] is left unconstrained. *)
Class EngineLaws (E : Type) `{Engine E} := {
  deleteFile_files n e l e' :
    ffmpeg_deleteFile n e = (Ok tt, l, e') →
    ffmpeg_files e' = ffmpeg_files e ∖ {[n]};
}.

(** ** The worker (ffmpeg.worker.ts) *)

Definition endsWith (s suffix : string) : bool :=
  (String.length suffix <=? String.length s)%nat &&
  String.eqb
    (substring (String.length s - String.length suffix) (String.length suffix) s)
    suffix.

Section Worker.
Context {E : Type} `{Engine E}.

(** The module-level variables of the worker: [loaded], the FFmpeg
    instance (with the number of [log] listeners registered on it) and
    the messages posted to the page so far, oldest first. *)
Record Worker := {
  loaded : bool;
  listeners : nat;
  ffmpeg : E;
  posted : list WorkerResponse;
}.

Definition post (msg : WorkerResponse) : M Worker unit :=
  modify (λ w, {| loaded := loaded w; listeners := listeners w;
                  ffmpeg := ffmpeg w; posted := posted w ++ [msg] |}).

Definition set_loaded (b : bool) : M Worker unit :=
  modify (λ w, {| loaded := b; listeners := listeners w;
                  ffmpeg := ffmpeg w; posted := posted w |}).

(** [ffmpeg.on("log", ({ message }) => post({ type: "progress", message }))] *)
Definition on_log : M Worker unit :=
  modify (λ w, {| loaded := loaded w; listeners := S (listeners w);
                  ffmpeg := ffmpeg w; posted := posted w |}).

(** Every registered listener posts one [progress] per logged line. *)
Definition progress_of (n : nat) (lines : list string) : list WorkerResponse :=
  concat (map (λ l, replicate n (Progress l)) lines).

(** A call of the FFmpeg instance. *)
Definition call {A} (op : E → outcome A * list string * E) : M Worker A :=
  λ w, let '(r, lines, e') := op (ffmpeg w) in
       (r, {| loaded := loaded w; listeners := listeners w; ffmpeg := e';
              posted := posted w ++ progress_of (listeners w) lines |}).

(** A call of [toBlobURL], which logs nothing. *)
Definition fetch (url mime : string) : M Worker string :=
  λ w, let '(r, e') := toBlobURL url mime (ffmpeg w) in
       (r, {| loaded := loaded w; listeners := listeners w; ffmpeg := e';
              posted := posted w |}).

Definition coreBase : string :=
  "https://cdn.jsdelivr.net/npm/@ffmpeg/core@0.12.10/dist/esm".

Definition ensureLoaded : M Worker unit :=
  ld ← gets loaded;
  if ld : bool then ret tt else
  on_log ;;
  core ← fetch (coreBase +:+ "/ffmpeg-core.js") "text/javascript";
  wasm ← fetch (coreBase +:+ "/ffmpeg-core.wasm") "application/wasm";
  catch
    (wrk ← fetch (coreBase +:+ "/ffmpeg-core.worker.js") "text/javascript";
     call (ffmpeg_load {| coreURL := core; wasmURL := wasm;
                          workerURL := Some wrk |}))
    (λ _, call (ffmpeg_load {| coreURL := core; wasmURL := wasm;
                               workerURL := None |})) ;;
  set_loaded true ;;
  post Loaded.

(** [req.segments.map((s) => `file '${s.name}'`).join("\n")] *)
Definition concat_list (segs : list SegmentInput) : string :=
  String.concat (String "010" "")
    (map (λ s, "file '" +:+ seg_name s +:+ "'") segs).

Definition concat_branch (req : WorkerRequest) : M Worker unit :=
  forEach (λ seg, call (ffmpeg_writeFile (seg_name seg) (seg_data seg)))
          (req_segments req) ;;
  call (ffmpeg_writeFile "list.txt"
          (list_byte_of_string (concat_list (req_segments req)))) ;;
  call (ffmpeg_exec ["-f"; "concat"; "-safe"; "0"; "-i"; "list.txt";
                     "-c"; "copy"; req_outputName req]) ;;
  outBuf ← call (ffmpeg_readFile (req_outputName req));
  call (ffmpeg_deleteFile "list.txt") ;;
  forEach (λ seg, call (ffmpeg_deleteFile (seg_name seg))) (req_segments req) ;;
  call (ffmpeg_deleteFile (req_outputName req)) ;;
  post (Result (req_outputName req) "video/webm" outBuf
               (req_runId req) (req_phase req)).

Definition reencode_branch (req : WorkerRequest) : M Worker unit :=
  call (ffmpeg_writeFile (req_inputName req) (req_inputData req)) ;;
  call (ffmpeg_exec (["-i"; req_inputName req] ++ req_args req
                       ++ [req_outputName req])) ;;
  outBuf ← call (ffmpeg_readFile (req_outputName req));
  call (ffmpeg_deleteFile (req_inputName req)) ;;
  call (ffmpeg_deleteFile (req_outputName req)) ;;
  let mimeType := if endsWith (req_outputName req) ".mp4"
                  then "video/mp4" else "application/octet-stream" in
  post (Result (req_outputName req) mimeType outBuf
               (req_runId req) (req_phase req)).

(** The body of the [try] of [self.onmessage]. *)
Definition onmessage_body (req : WorkerRequest) : M Worker unit :=
  if String.eqb (req_type req) "load" then ensureLoaded else
  ensureLoaded ;;
  if String.eqb (req_type req) "concat" then concat_branch req else
  if String.eqb (req_type req) "reencode" then reencode_branch req else
  ret tt.

(** [self.onmessage]: the handler returns nothing; its effect is the new
    state of the worker.  A request the engine never finishes leaves the
    worker where it stopped. *)
Definition self_onmessage (req : WorkerRequest) (w : Worker) : Worker :=
  snd (catch (onmessage_body req)
             (λ message, post (Error message (req_runId req) (req_phase req)))
             w).

End Worker.
Arguments Worker E : clear implicits.

(** ** A simulated engine

    An in-memory engine to run the worker on concrete inputs: files are a
    finite map from names to contents; reading or deleting a missing file
    throws, as FFmpeg's file system does; [exec] copies the file named
    after [-i] to the output name, the last argument.  Three switches make
    a fetch, a load or [exec] fail. *)

Record SimEngine := {
  sim_files : gmap string bytes;
  sim_unreachable : list string;   (* URLs whose fetch fails *)
  sim_threads : bool;              (* does the multi-threaded core load? *)
  sim_single : bool;               (* does the single-threaded core load? *)
  sim_exec : bool;                 (* does [exec] run? *)
}.

Definition sim_with_files (f : gmap string bytes) (e : SimEngine) : SimEngine :=
  {| sim_files := f; sim_unreachable := sim_unreachable e;
     sim_threads := sim_threads e; sim_single := sim_single e;
     sim_exec := sim_exec e |}.

Fixpoint arg_after (flag : string) (args : list string) : option string :=
  match args with
  | a :: ((b :: _) as rest) =>
      if String.eqb a flag then Some b else arg_after flag rest
  | _ => None
  end.

Definition sim_toBlobURL (url mime : string) (e : SimEngine)
  : outcome string * SimEngine :=
  if existsb (String.eqb url) (sim_unreachable e)
  then (Throw "Failed to fetch", e)
  else (Ok ("blob:" +:+ url), e).

Definition sim_load (c : LoadConfig) (e : SimEngine)
  : outcome unit * list string * SimEngine :=
  let ok := match workerURL c with
            | Some _ => sim_threads e
            | None => sim_single e
            end in
  if ok then (Ok tt, [], e) else (Throw "failed to import ffmpeg-core.js", [], e).

Definition sim_writeFile (n : string) (d : bytes) (e : SimEngine)
  : outcome unit * list string * SimEngine :=
  (Ok tt, [], sim_with_files (<[n := d]> (sim_files e)) e).

Definition sim_execute (args : list string) (e : SimEngine)
  : outcome unit * list string * SimEngine :=
  if sim_exec e then
    match arg_after "-i" args ≫= (λ i, sim_files e !! i), last args with
    | Some d, Some out =>
        (Ok tt, ["ffmpeg: done"], sim_with_files (<[out := d]> (sim_files e)) e)
    | _, _ => (Ok tt, ["ffmpeg: no such file"], e)
    end
  else (Throw "Aborted()", ["ffmpeg: aborted"], e).

Definition sim_readFile (n : string) (e : SimEngine)
  : outcome bytes * list string * SimEngine :=
  match sim_files e !! n with
  | Some d => (Ok d, [], e)
  | None => (Throw "ErrnoError: FS error", [], e)
  end.

Definition sim_deleteFile (n : string) (e : SimEngine)
  : outcome unit * list string * SimEngine :=
  match sim_files e !! n with
  | Some _ => (Ok tt, [], sim_with_files (delete n (sim_files e)) e)
  | None => (Throw "ErrnoError: FS error", [], e)
  end.

Global Instance sim_engine : Engine SimEngine := {|
  toBlobURL := sim_toBlobURL;
  ffmpeg_load := sim_load;
  ffmpeg_writeFile := sim_writeFile;
  ffmpeg_exec := sim_execute;
  ffmpeg_readFile := sim_readFile;
  ffmpeg_deleteFile := sim_deleteFile;
  ffmpeg_files := λ e, dom (sim_files e);
|}.

Global Instance sim_engine_laws : EngineLaws SimEngine.
Proof.
  constructor. intros n e l e'. cbn. unfold sim_deleteFile.
  destruct (sim_files e !! n); [|discriminate].
  intros [= <- <-]. cbn. apply dom_delete_L.
Qed.

(** A worker over the simulated engine, before anything is loaded. *)
Definition sim_fresh : SimEngine :=
  {| sim_files := ∅; sim_unreachable := []; sim_threads := true;
     sim_single := true; sim_exec := true |}.

Definition sim_worker : Worker SimEngine :=
  {| loaded := false; listeners := 0; ffmpeg := sim_fresh; posted := [] |}.

(** A loaded worker with one [log] listener. *)
Definition sim_loaded (e : SimEngine) : Worker SimEngine :=
  {| loaded := true; listeners := 1; ffmpeg := e; posted := [] |}.

Definition sim_no_threads : SimEngine :=
  {| sim_files := ∅; sim_unreachable := []; sim_threads := false;
     sim_single := true; sim_exec := true |}.

Definition sim_exec_fails : SimEngine :=
  {| sim_files := ∅; sim_unreachable := []; sim_threads := true;
     sim_single := true; sim_exec := false |}.

Definition sim_offline : SimEngine :=
  {| sim_files := ∅; sim_unreachable := [coreBase +:+ "/ffmpeg-core.js"];
     sim_threads := true; sim_single := true; sim_exec := true |}.

Definition probe_request : WorkerRequest :=
  {| req_type := "probe"; req_segments := []; req_inputName := "";
     req_inputData := []; req_outputName := ""; req_args := [];
     req_runId := Some "r1"; req_phase := Some "merge" |}.

(** ** An engine that records its [exec] calls

    [Traced E] runs the engine [E] and remembers the argument lists
    [exec] has been called with, oldest first. *)

Record Traced (E : Type) := {
  inner : E;
  exec_calls : list (list string);
}.
Arguments inner {E} t.
Arguments exec_calls {E} t.

Section Traced.
Context {E : Type} `{Engine E}.

Definition traced {A} (calls : list (list string))
    (r : outcome A * list string * E) : outcome A * list string * Traced E :=
  let '(o, lines, e) := r in (o, lines, {| inner := e; exec_calls := calls |}).

Global Instance traced_engine : Engine (Traced E) := {|
  toBlobURL url mime t :=
    let '(o, e) := toBlobURL url mime (inner t) in
    (o, {| inner := e; exec_calls := exec_calls t |});
  ffmpeg_load c t := traced (exec_calls t) (ffmpeg_load c (inner t));
  ffmpeg_writeFile n d t := traced (exec_calls t) (ffmpeg_writeFile n d (inner t));
  ffmpeg_exec args t := traced (exec_calls t ++ [args]) (ffmpeg_exec args (inner t));
  ffmpeg_readFile n t := traced (exec_calls t) (ffmpeg_readFile n (inner t));
  ffmpeg_deleteFile n t := traced (exec_calls t) (ffmpeg_deleteFile n (inner t));
  ffmpeg_files t := ffmpeg_files (inner t);
|}.

End Traced.

(** ** The page (App.tsx): data *)

Record Blob := { blob_data : bytes; blob_type : string }.

Definition blob_size (b : Blob) : N := N.of_nat (length (blob_data b)).

Record Segment := { id : nat; seg_blob : Blob; seg_url : string }.

Record OutputVideo := {
  label : string;
  ov_blob : Blob;
  ov_url : string;
  ov_mime : string;
}.

Record RunResult := {
  timestamp : string;
  runId : string;
  segmentCount : nat;
  segmentDurationMs : nat;
  gapMs : nat;
  segmentSizesBytes : list N;
  mergedBytes : N;
  mp4Bytes : N;
  tRecordMs : Z;
  tMergeMs : Z;
  tMp4Ms : Z;
  tTotalMs : Z;
}.

(** The settings of the automated run ([useState(4)], [useState(5000)],
    [useState(250)]; none of them has a setter). *)
Module Settings.
Definition segmentCount : nat := 4.
Definition segmentDurationMs : nat := 5000.
Definition gapMs : nat := 250.
End Settings.

(** What a stage promise resolves to: [{ blob, mime, bytes }]. *)
Record StageOutput := { so_blob : Blob; so_mime : string; so_bytes : N }.

Inductive settlement :=
| Resolved (x : StageOutput)
| Rejected (message : string).

(** The log file picked by the user: the exception that writing to it
    raises, as [String] renders it, when it cannot be written, and the
    records appended to it so far (each is written as one JSON line). *)
Record FileHandle := {
  fh_failure : option string;
  fh_records : list RunResult;
}.

(** The state of the component.  [pendingRef] maps a key to the promise
    registered under it; a promise is named by its creation number, and
    [settlements] lists the calls of [resolve] and [reject] made so far,
    oldest first. *)
Record App := {
  pendingRef : gmap string nat;
  promises : nat;
  settlements : list (nat * settlement);
  logs : string;
  timestamps : nat;          (* calls of [nowIso] so far *)
  rawMerged : option OutputVideo;
  mp4 : option OutputVideo;
  segments : list Segment;
  isRecording : bool;
  workerLoaded : bool;
  isBusy : bool;
  objectURLs : nat;          (* calls of [URL.createObjectURL] so far *)
  fileHandleRef : option FileHandle;
  logFileName : string;
}.

Definition set_registry (p : gmap string nat) (n : nat)
    (l : list (nat * settlement)) (a : App) : App :=
  {| pendingRef := p; promises := n; settlements := l;
     logs := logs a; timestamps := timestamps a; rawMerged := rawMerged a;
     mp4 := mp4 a; segments := segments a; isRecording := isRecording a;
     workerLoaded := workerLoaded a; isBusy := isBusy a;
     objectURLs := objectURLs a; fileHandleRef := fileHandleRef a;
     logFileName := logFileName a |}.

Definition set_logs (l : string) (t : nat) (a : App) : App :=
  {| pendingRef := pendingRef a; promises := promises a;
     settlements := settlements a;
     logs := l; timestamps := t; rawMerged := rawMerged a;
     mp4 := mp4 a; segments := segments a; isRecording := isRecording a;
     workerLoaded := workerLoaded a; isBusy := isBusy a;
     objectURLs := objectURLs a; fileHandleRef := fileHandleRef a;
     logFileName := logFileName a |}.

Definition set_outputs (r m : option OutputVideo) (sg : list Segment)
    (urls : nat) (a : App) : App :=
  {| pendingRef := pendingRef a; promises := promises a;
     settlements := settlements a;
     logs := logs a; timestamps := timestamps a; rawMerged := r;
     mp4 := m; segments := sg; isRecording := isRecording a;
     workerLoaded := workerLoaded a; isBusy := isBusy a;
     objectURLs := urls; fileHandleRef := fileHandleRef a;
     logFileName := logFileName a |}.

Definition set_flags (rec loaded busy : bool) (a : App) : App :=
  {| pendingRef := pendingRef a; promises := promises a;
     settlements := settlements a;
     logs := logs a; timestamps := timestamps a; rawMerged := rawMerged a;
     mp4 := mp4 a; segments := segments a; isRecording := rec;
     workerLoaded := loaded; isBusy := busy;
     objectURLs := objectURLs a; fileHandleRef := fileHandleRef a;
     logFileName := logFileName a |}.

Definition set_fileHandleRef (h : option FileHandle) (a : App) : App :=
  {| pendingRef := pendingRef a; promises := promises a;
     settlements := settlements a;
     logs := logs a; timestamps := timestamps a; rawMerged := rawMerged a;
     mp4 := mp4 a; segments := segments a; isRecording := isRecording a;
     workerLoaded := workerLoaded a; isBusy := isBusy a;
     objectURLs := objectURLs a; fileHandleRef := h;
     logFileName := logFileName a |}.

Definition setRawMerged (v : option OutputVideo) (a : App) : App :=
  set_outputs v (mp4 a) (segments a) (objectURLs a) a.
Definition setMp4 (v : option OutputVideo) (a : App) : App :=
  set_outputs (rawMerged a) v (segments a) (objectURLs a) a.
Definition setSegments (sg : list Segment) (a : App) : App :=
  set_outputs (rawMerged a) (mp4 a) sg (objectURLs a) a.
Definition setIsRecording (b : bool) (a : App) : App :=
  set_flags b (workerLoaded a) (isBusy a) a.
Definition setWorkerLoaded (b : bool) (a : App) : App :=
  set_flags (isRecording a) b (isBusy a) a.
Definition setIsBusy (b : bool) (a : App) : App :=
  set_flags (isRecording a) (workerLoaded a) b a.

(** [URL.createObjectURL]: a fresh URL for each call. *)
Definition createObjectURL (b : Blob) (a : App) : string * App :=
  ("blob:" +:+ pretty (objectURLs a),
   set_outputs (rawMerged a) (mp4 a) (segments a) (S (objectURLs a)) a).

(** ** The page: the log pane *)

Definition newline : string := String "010" "".

(** [s.split("\\n")] *)
Fixpoint split_newline (s : string) : list string :=
  match s with
  | EmptyString => [""]
  | String c s' =>
      let r := split_newline s' in
      if Ascii.eqb c "010" then "" :: r
      else match r with
           | l :: ls => String c l :: ls
           | [] => [String c ""]
           end
  end.

(** The bounded append both [uiLog] and the progress branch perform. *)
Definition appendLog (prev msg : string) : string :=
  let next := prev +:+ msg +:+ newline in
  let lines := split_newline next in
  if (350 <? length lines)%nat
  then String.concat newline (drop (length lines - 350) lines)
  else next.

(** [formatBytes]: divisions by 1024 are exact on doubles, and [toFixed]
    rounds the exact value, ties upwards. *)
Fixpoint formatBytes_loop (fuel : nat) (bytes : N) (i : nat) : nat :=
  match fuel with
  | O => i
  | S fuel' =>
      if (1024 ^ N.of_nat (S i) <=? bytes)%N
      then formatBytes_loop fuel' bytes (S i) else i
  end.

Definition two_digits (n : N) : string :=
  (if (n <? 10)%N then "0" else "") +:+ pretty n.

Definition formatBytes (b : N) : string :=
  let i := formatBytes_loop 3 b 0 in
  let units := ["B"; "KB"; "MB"; "GB"] in
  let d := (1024 ^ N.of_nat i)%N in
  let v := match i with
           | O => pretty b
           | _ => let n := ((200 * b + d) / (2 * d))%N in
                  pretty (n / 100)%N +:+ "." +:+ two_digits (n mod 100)%N
           end in
  v +:+ " " +:+ nth i units "".

(** ** The page: the handler of the worker's messages *)

Section Page.
(** [nowIso k] is what the [k]-th call of [nowIso()] returns. *)
Variable nowIso : nat → string.

Definition uiLog (line : string) (a : App) : App :=
  set_logs (appendLog (logs a) (nowIso (timestamps a) +:+ " " +:+ line))
           (S (timestamps a)) a.

(** A string is truthy when it is present and not empty. *)
Definition truthy (o : option string) : bool :=
  match o with
  | Some s => negb (String.eqb s "")
  | None => false
  end.

(** [`${msg.runId ?? "no-run"}:${msg.phase ?? "no-phase"}`].  Every key
    holds a colon, so none is a property that [pendingRef.current]
    inherits from [Object.prototype]. *)
Definition key_of (runId phase : option string) : string :=
  default "no-run" runId +:+ ":" +:+ default "no-phase" phase.

(** [delete pendingRef.current[key]] *)
Definition delete_pending (key : string) (a : App) : App :=
  set_registry (delete key (pendingRef a)) (promises a) (settlements a) a.

(** [pending.resolve(x)] and [pending.reject(new Error(message))] *)
Definition resolve (p : nat) (x : StageOutput) (a : App) : App :=
  set_registry (pendingRef a) (promises a) (settlements a ++ [(p, Resolved x)]) a.
Definition reject (p : nat) (message : string) (a : App) : App :=
  set_registry (pendingRef a) (promises a) (settlements a ++ [(p, Rejected message)]) a.

Definition error_line (message : string) (runId phase : option string) : string :=
  "[ERROR]" +:+
  (if truthy runId
   then " (" +:+ default "" runId +:+
        (if truthy phase then "-" +:+ default "" phase else "") +:+ ")"
   else "") +:+
  " " +:+ message.

Definition w_onmessage (msg : WorkerResponse) (a : App) : App :=
  match msg with
  | Loaded => uiLog "[Worker] FFmpeg loaded." (setWorkerLoaded true a)
  | Progress message =>
      set_logs (appendLog (logs a) message) (timestamps a) a
  | Error message runId phase =>
      let key := key_of runId phase in
      let a1 := match pendingRef a !! key with
                | Some pending => reject pending message (delete_pending key a)
                | None => a
                end in
      uiLog (error_line message runId phase) a1
  | Result outputName mimeType data runId phase =>
      let blob := {| blob_data := data; blob_type := mimeType |} in
      let bytes := blob_size blob in
      let key := key_of runId phase in
      match pendingRef a !! key with
      | Some pending =>
          resolve pending {| so_blob := blob; so_mime := mimeType; so_bytes := bytes |}
                  (delete_pending key a)
      | None =>
          (* Non-automated legacy handling: set outputs for preview *)
          let '(url, a1) := createObjectURL blob a in
          if String.eqb outputName "merged.webm" then
            setRawMerged (Some {| label := "Raw merged (stream copy)";
                                  ov_blob := blob; ov_url := url;
                                  ov_mime := mimeType |}) a1
          else if String.eqb outputName "reencoded.mp4" then
            setMp4 (Some {| label := "Re-encoded MP4 (H.264)";
                            ov_blob := blob; ov_url := url;
                            ov_mime := mimeType |}) a1
          else a1
      end
  end.

(** [new Promise((resolve, reject) => { pendingRef.current[key] = { resolve, reject }; })]:
    the new promise and the state in which it is stored under [key]. *)
Definition new_pending (key : string) (a : App) : nat * App :=
  (promises a,
   set_registry (<[key := promises a]> (pendingRef a)) (S (promises a))
                (settlements a) a).

(** The settlement a promise has received: the first call of its
    [resolve] or [reject]; later calls have no effect on a promise. *)
Definition settlement_of (p : nat) (a : App) : option settlement :=
  snd <$> find (λ x, Nat.eqb (fst x) p) (settlements a).

(** [clearAll] (revoking an object URL has no effect on the state). *)
Definition clearAll (a : App) : App :=
  set_logs "" (timestamps a) (set_outputs None None [] (objectURLs a) a).

Definition initial_app : App :=
  {| pendingRef := ∅; promises := 0; settlements := []; logs := "";
     timestamps := 0; rawMerged := None; mp4 := None; segments := [];
     isRecording := false; workerLoaded := false; isBusy := false;
     objectURLs := 0; fileHandleRef := None; logFileName := "(none)" |}.

End Page.

(** ** The page and the worker together *)

(** The value of a finite binary64 number.  The other numbers, which
    [performance.now()] never returns, are given the value 0; what is
    proved of the durations is proved for finite readings. *)
Definition float_value (x : float) : Q :=
  match Prim2SF x with
  | S754_finite s m e =>
      let n := if s then Z.neg m else Z.pos m in
      if (0 <=? e)%Z then inject_Z (n * 2 ^ e)
      else (n # Pos.pow 2 (Z.to_pos (- e)))%Q
  | _ => 0%Q
  end.

(** To the nearest integer, ties upwards. *)
Definition round_half_up (x : Q) : Z := Qfloor (x + (1 # 2))%Q.

(** [Math.round] on a finite number: its value, rounded. *)
Definition Math_round (x : float) : Z := round_half_up (float_value x).

(** [String(e)] for an [Error] of the given message: [Error.prototype.toString]
    leaves the colon out when the message is empty. *)
Definition String_of_error (message : string) : string :=
  if String.eqb message "" then "Error" else "Error: " +:+ message.

Definition mp4Args : list string :=
  ["-fflags"; "+genpts"; "-fps_mode"; "cfr"; "-r"; "30"; "-vf"; "fps=30";
   "-c:v"; "libx264"; "-preset"; "veryfast"; "-crf"; "28";
   "-pix_fmt"; "yuv420p"; "-movflags"; "+faststart"; "-an"].

(** What a run takes from outside the program: the clock, the camera, and
    the two sources of the run identifier.  [performance_now k] is the
    value of the [k]-th [performance.now()] of the run, in program order;
    [recordOneSegment_outcome i] is how the recording of segment [i] ends;
    a recording that fails carries what [String] makes of the exception,
    [NotAllowedError: Permission denied] for instance. *)
Record RunEnv := {
  performance_now : nat → float;
  recordOneSegment_outcome : nat → outcome Blob;
  Date_now : N;
  Math_random_hex : string;
}.

Section System.
Context {E : Type} `{Engine E}.
Variable nowIso : nat → string.

(** The page, the worker, and the requests the page has posted to the
    worker so far, oldest first. *)
Record Sys := { app : App; worker : Worker E; sent : list WorkerRequest }.

Definition liftA (f : App → App) : M Sys unit :=
  modify (λ s, {| app := f (app s); worker := worker s; sent := sent s |}).

Definition log (line : string) : M Sys unit := liftA (uiLog nowIso line).

(** [workerRef.current.postMessage(req)]: the worker handles the request,
    and the page handles the messages the worker has posted, in order. *)
Definition postMessage (req : WorkerRequest) (s : Sys) : Sys :=
  let w := self_onmessage req (worker s) in
  {| app := foldl (λ a msg, w_onmessage nowIso msg a) (app s) (posted w);
     worker := {| loaded := loaded w; listeners := listeners w;
                  ffmpeg := ffmpeg w; posted := [] |};
     sent := sent s ++ [req] |}.

(** [await p] *)
Definition await (p : nat) : M Sys StageOutput :=
  λ s, match settlement_of p (app s) with
       | Some (Resolved x) => (Ok x, s)
       | Some (Rejected message) => (Throw message, s)
       | None => (Hang, s)
       end.

Definition register (key : string) : M Sys nat :=
  λ s, let '(p, a) := new_pending key (app s) in
       (Ok p, {| app := a; worker := worker s; sent := sent s |}).

Definition load_request : WorkerRequest :=
  {| req_type := "load"; req_segments := []; req_inputName := "";
     req_inputData := []; req_outputName := ""; req_args := [];
     req_runId := None; req_phase := None |}.

Definition concat_request (runId : string) (segBlobs : list Blob) : WorkerRequest :=
  {| req_type := "concat";
     req_segments :=
       imap (λ idx b, {| seg_name := "seg" +:+ pretty idx +:+ ".webm";
                         seg_data := blob_data b |}) segBlobs;
     req_inputName := ""; req_inputData := [];
     req_outputName := "merged.webm"; req_args := [];
     req_runId := Some runId; req_phase := Some "merge" |}.

Definition reencode_request (runId : string) (mergedBlob : Blob) : WorkerRequest :=
  {| req_type := "reencode"; req_segments := [];
     req_inputName := "merged.webm"; req_inputData := blob_data mergedBlob;
     req_outputName := "reencoded.mp4"; req_args := mp4Args;
     req_runId := Some runId; req_phase := Some "mp4" |}.

Definition workerConcat (runId : string) (segBlobs : list Blob) : M Sys StageOutput :=
  wl ← gets (λ s, workerLoaded (app s));
  if negb wl then throw "FFmpeg worker not loaded." else
  p ← register (runId +:+ ":merge");
  modify (postMessage (concat_request runId segBlobs)) ;;
  await p.

Definition workerReencodeMp4 (runId : string) (mergedBlob : Blob) : M Sys StageOutput :=
  wl ← gets (λ s, workerLoaded (app s));
  if negb wl then throw "FFmpeg worker not loaded." else
  p ← register (runId +:+ ":mp4");
  modify (postMessage (reencode_request runId mergedBlob)) ;;
  await p.

(** The effect run when the component is mounted: the worker is created
    and sent [load]. *)
Definition mount (e : E) : Sys :=
  postMessage load_request
    {| app := initial_app;
       worker := {| loaded := false; listeners := 0; ffmpeg := e; posted := [] |};
       sent := [] |}.

(** *** The automated run *)

Variable env : RunEnv.

Definition mkRunId : string :=
  pretty (Date_now env) +:+ "-" +:+ Math_random_hex env.

(** [recordOneSegment] starts the recorder and resolves with the blob
    when the recorder stops; the outcome is the camera's. *)
Definition recordOneSegment (i : nat) : M Sys Blob :=
  liftA (setIsRecording true) ;;
  b ← (λ s, (recordOneSegment_outcome env i, s));
  liftA (setIsRecording false) ;;
  mret b.

Definition objectURL (b : Blob) : M Sys string :=
  λ s, let '(url, a) := createObjectURL b (app s) in
       (Ok url, {| app := a; worker := worker s; sent := sent s |}).

(** The body of the recording loop, for the segments [count - todo],
    ..., [count - 1]; the result pairs each blob with its URL. *)
Fixpoint record_segments (runId : string) (count todo : nat)
  : M Sys (list (Blob * string)) :=
  match todo with
  | O => mret []
  | S todo' =>
      let i := count - todo in
      log ("[RUN " +:+ runId +:+ "] Recording segment " +:+ pretty (i + 1)
           +:+ "/" +:+ pretty count +:+ " for "
           +:+ pretty Settings.segmentDurationMs +:+ "ms...") ;;
      b ← recordOneSegment i;
      url ← objectURL b;
      log ("[RUN " +:+ runId +:+ "] Segment " +:+ pretty (i + 1) +:+ " size: "
           +:+ pretty (blob_size b) +:+ " bytes (" +:+ formatBytes (blob_size b)
           +:+ ")") ;;
      rest ← record_segments runId count todo';
      mret ((b, url) :: rest)
  end.

(** The three [try] bodies of [runAutomated]. *)
Definition record_stage (runId : string) : M Sys (list (Blob * string)) :=
  record_segments runId Settings.segmentCount Settings.segmentCount.

Definition merge_stage (runId : string) (segBlobs : list Blob) : M Sys StageOutput :=
  workerConcat runId segBlobs.

Definition mp4_stage (runId : string) (merged : StageOutput) : M Sys StageOutput :=
  log ("[RUN " +:+ runId +:+ "] Re-encoding MP4 (H.264/libx264)...") ;;
  workerReencodeMp4 runId (so_blob merged).

(** What [runAutomated] does between the [try] blocks. *)
Definition begin_run (runId : string) : M Sys unit :=
  liftA (setIsBusy true) ;;
  liftA clearAll ;;
  log ("[RUN " +:+ runId +:+ "] Starting automated test. segmentCount="
       +:+ pretty Settings.segmentCount +:+ ", segmentDurationMs="
       +:+ pretty Settings.segmentDurationMs +:+ ", gapMs="
       +:+ pretty Settings.gapMs).

Definition after_record (segs : list (Blob * string)) : M Sys unit :=
  liftA (setIsRecording false) ;;
  liftA (setSegments
           (imap (λ idx bu, {| id := idx + 1; seg_blob := fst bu;
                               seg_url := snd bu |}) segs)).

Definition after_merge (runId : string) (merged : StageOutput) (tMergeMs : Z)
  : M Sys unit :=
  log ("[RUN " +:+ runId +:+ "] Merged size: " +:+ pretty (so_bytes merged)
       +:+ " bytes (" +:+ formatBytes (so_bytes merged) +:+ ") in "
       +:+ pretty tMergeMs +:+ "ms") ;;
  mergedUrl ← objectURL (so_blob merged);
  liftA (setRawMerged (Some {| label := "Merged (stream copy)";
                               ov_blob := so_blob merged; ov_url := mergedUrl;
                               ov_mime := so_mime merged |})).

Definition after_mp4 (runId : string) (mp4Out : StageOutput) (tMp4Ms : Z)
  : M Sys unit :=
  log ("[RUN " +:+ runId +:+ "] MP4 size: " +:+ pretty (so_bytes mp4Out)
       +:+ " bytes (" +:+ formatBytes (so_bytes mp4Out) +:+ ") in "
       +:+ pretty tMp4Ms +:+ "ms") ;;
  mp4Url ← objectURL (so_blob mp4Out);
  liftA (setMp4 (Some {| label := "Re-encoded MP4 (H.264)";
                         ov_blob := so_blob mp4Out; ov_url := mp4Url;
                         ov_mime := so_mime mp4Out |})).

(** [appendToFile(handle, JSON.stringify(result) + "\n")] *)
Definition appendToFile (handle : FileHandle) (result : RunResult) : M Sys unit :=
  match fh_failure handle with
  | None =>
      liftA (set_fileHandleRef
               (Some {| fh_failure := None;
                        fh_records := fh_records handle ++ [result] |}))
  | Some e => throw e
  end.

(** The object literal [result] of [runAutomated]. *)
Definition result_of (stamp runId : string) (segs : list (Blob * string))
    (merged mp4Out : StageOutput) (tRecordMs tMergeMs tMp4Ms tTotalMs : Z)
  : RunResult :=
  {| timestamp := stamp; runId := runId;
     segmentCount := Settings.segmentCount;
     segmentDurationMs := Settings.segmentDurationMs;
     gapMs := Settings.gapMs;
     segmentSizesBytes := map (λ bu, blob_size (fst bu)) segs;
     mergedBytes := so_bytes merged; mp4Bytes := so_bytes mp4Out;
     tRecordMs := tRecordMs; tMergeMs := tMergeMs; tMp4Ms := tMp4Ms;
     tTotalMs := tTotalMs |}.

(** The end of [runAutomated]: the record is assembled, reported and
    appended to the log file when one is selected. *)
Definition finish_run (runId : string) (segs : list (Blob * string))
    (merged mp4Out : StageOutput) (tRecordMs tMergeMs tMp4Ms tTotalMs : Z)
  : M Sys RunResult :=
  stamp ← gets (λ s, nowIso (timestamps (app s)));
  liftA (λ a, set_logs (logs a) (S (timestamps a)) a) ;;
  let result := result_of stamp runId segs merged mp4Out
                          tRecordMs tMergeMs tMp4Ms tTotalMs in
  log ("[RUN " +:+ runId +:+ "] Done. Total time: " +:+ pretty tTotalMs +:+ "ms") ;;
  catch
    (handle ← gets (λ s, fileHandleRef (app s));
     match handle with
     | Some h =>
         appendToFile h result ;;
         name ← gets (λ s, logFileName (app s));
         log ("[RUN " +:+ runId +:+ "] Appended results to log file: " +:+ name)
     | None =>
         log ("[RUN " +:+ runId +:+ "] No log file selected; skipping file append.")
     end)
    (λ e, log ("[ERROR] Failed to append to log file: " +:+ e)) ;;
  liftA (setIsBusy false) ;;
  mret result.

(** The three [catch] blocks of [runAutomated]; the first is followed by
    the [finally] block of the recording loop. *)
Definition on_record_failed (runId e : string) : M Sys (option (list (Blob * string))) :=
  log ("[RUN " +:+ runId +:+ "] Recording failed: " +:+ e) ;;
  liftA (setIsBusy false) ;;
  liftA (setIsRecording false) ;;
  mret None.

Definition on_merge_failed (runId e : string) : M Sys (option StageOutput) :=
  log ("[RUN " +:+ runId +:+ "] Merge failed: " +:+ String_of_error e) ;;
  liftA (setIsBusy false) ;;
  mret None.

Definition on_mp4_failed (runId e : string) : M Sys (option StageOutput) :=
  log ("[RUN " +:+ runId +:+ "] MP4 encode failed: " +:+ String_of_error e) ;;
  liftA (setIsBusy false) ;;
  mret None.

(** [runAutomated]: the result is the record of the run when the run
    reaches the point where it is assembled, and nothing when the
    function returns before. *)
Definition runAutomated : M Sys (option RunResult) :=
  busy ← gets (λ s, isBusy (app s));
  if busy : bool then mret None else
  wl ← gets (λ s, workerLoaded (app s));
  if negb wl then
    log "[ERROR] FFmpeg worker is not loaded yet." ;; mret None
  else
  let runId := mkRunId in
  let startTotal := performance_now env 0 in
  begin_run runId ;;
  let startRecord := performance_now env 1 in
  recorded ← catch (Some <$> record_stage runId) (on_record_failed runId);
  match recorded with
  | None => mret None
  | Some segs =>
  let tRecordMs := Math_round (performance_now env 2 - startRecord)%float in
  after_record segs ;;
  let startMerge := performance_now env 3 in
  mergeOut ← catch (Some <$> merge_stage runId (map fst segs))
                   (on_merge_failed runId);
  match mergeOut with
  | None => mret None
  | Some merged =>
  let tMergeMs := Math_round (performance_now env 4 - startMerge)%float in
  after_merge runId merged tMergeMs ;;
  let startMp4 := performance_now env 5 in
  mp4Result ← catch (Some <$> mp4_stage runId merged) (on_mp4_failed runId);
  match mp4Result with
  | None => mret None
  | Some mp4Out =>
  let tMp4Ms := Math_round (performance_now env 6 - startMp4)%float in
  after_mp4 runId mp4Out tMp4Ms ;;
  let tTotalMs := Math_round (performance_now env 7 - startTotal)%float in
  Some <$> finish_run runId segs merged mp4Out tRecordMs tMergeMs tMp4Ms tTotalMs
  end end end.

End System.
Arguments Sys E : clear implicits.

(** A recording of one segment, for the runs on the simulated engine. *)
Definition one_segment : list Blob :=
  [{| blob_data := [Byte.x1a; Byte.x45; Byte.xdf; Byte.xa3];
      blob_type := "video/webm" |}].

(** ** A simulated run

    The page mounted on the simulated engine, a camera that records
    segments of a few bytes, and clocks given by their eight readings. *)

Definition sim_now : nat → string := λ _, "2025-01-01T00:00:00.000Z".

Definition sim_env (clock : list float) : RunEnv :=
  {| performance_now := λ k, nth k clock 0%float;
     recordOneSegment_outcome :=
       λ i, Ok {| blob_data := replicate (i + 2) Byte.x1a;
                  blob_type := "video/webm" |};
     Date_now := 1700000000000;
     Math_random_hex := "8f3a1c" |}.

Definition sim_page : Sys SimEngine := mount sim_now sim_fresh.

(** Whole milliseconds: 20 s of recording, 100 ms for each stage. *)
Definition clock_steady : list float :=
  [0; 1; 20001; 20002; 20102; 20103; 20203; 20204]%float.

(** Readings a run can take, none before the one it follows:
    25.615, 1833.115, 4793.615 and 32788.115 ms, as the nearest binary64
    numbers. *)
Definition clock_inexact : list float :=
  [0x1.99d70a3d70a3dp+4; 0x1.99d70a3d70a3dp+4;
   0x1.ca475c28f5c29p+10; 0x1.ca475c28f5c29p+10;
   0x1.2b99d70a3d70ap+12; 0x1.2b99d70a3d70ap+12;
   0x1.00283ae147ae1p+15; 0x1.00283ae147ae1p+15]%float.

(** A merge that takes a quarter of a millisecond. *)
Definition clock_fast_merge : list float :=
  [0; 0; 20000; 20000; 20000.25; 20000.25; 20100; 20100]%float.

(** The record of the run on [clock_steady]. *)
Definition sim_record : RunResult :=
  {| timestamp := "2025-01-01T00:00:00.000Z";
     runId := "1700000000000-8f3a1c";
     segmentCount := 4; segmentDurationMs := 5000; gapMs := 250;
     segmentSizesBytes := [2; 3; 4; 5]%N;
     mergedBytes := 67; mp4Bytes := 67;
     tRecordMs := 20000; tMergeMs := 100; tMp4Ms := 100; tTotalMs := 20204 |}.

(** A camera that is refused, and a log file that cannot be written. *)
Definition sim_env_no_camera : RunEnv :=
  {| performance_now := λ k, nth k clock_steady 0%float;
     recordOneSegment_outcome := λ _, Throw "NotAllowedError: Permission denied";
     Date_now := 1700000000000;
     Math_random_hex := "8f3a1c" |}.

Definition sim_page_read_only : Sys SimEngine :=
  {| app := set_fileHandleRef
              (Some {| fh_failure := Some "NoModificationAllowedError: read-only";
                       fh_records := [] |})
              (app sim_page);
     worker := worker sim_page; sent := sent sim_page |}.

(** The record a run yields, if it yields one. *)
Definition record_of {S} (r : outcome (option RunResult) * S) : option RunResult :=
  match fst r with Ok (Some x) => Some x | _ => None end.

(** * Properties *)

(** ** Reasoning on monadic code *)

Lemma bind_Ok {S A B} (m : M S A) (k : A → M S B) s b s' :
  (m ≫= k) s = (Ok b, s') ↔ ∃ a s1, m s = (Ok a, s1) ∧ k a s1 = (Ok b, s').
Proof.
  unfold mbind, M_bind, bind. split.
  - destruct (m s) as [[a| |] s1] eqn:Hm; try discriminate. eauto.
  - intros (a & s1 & -> & Hk). exact Hk.
Qed.

Lemma fmap_Ok {S A B} (f : A → B) (m : M S A) s b s' :
  (f <$> m) s = (Ok b, s') ↔ ∃ a, m s = (Ok a, s') ∧ b = f a.
Proof.
  unfold fmap, M_fmap, bind, ret. split.
  - destruct (m s) as [[a| |] s1] eqn:Hm; try discriminate.
    intros [= <- <-]. eauto.
  - intros (a & -> & ->). reflexivity.
Qed.

(** ** The registry of pending promises (C1, C2, C3) *)

Section Registry.
Variable nowIso : nat → string.

(** What the page's registry goes through: a stage function registers a
    promise under a key, or a message of the worker arrives. *)
Inductive page_event :=
| Registers (key : string)
| Arrives (msg : WorkerResponse).

Definition page_step (a : App) (ev : page_event) : App :=
  match ev with
  | Registers key => snd (new_pending key a)
  | Arrives msg => w_onmessage nowIso msg a
  end.

Definition page_run (evs : list page_event) (a : App) : App :=
  foldl page_step a evs.

(** The calls of [resolve] and [reject] of promise [p] so far, in order. *)
Definition settle_calls (p : nat) (a : App) : list settlement :=
  map snd (List.filter (λ x, Nat.eqb (fst x) p) (settlements a)).

Definition times_settled (p : nat) (a : App) : nat := length (settle_calls p a).

(** The key a terminal message carries, and what it settles a waiter with. *)
Definition msg_key (msg : WorkerResponse) : option string :=
  match msg with
  | Result _ _ _ runId phase | Error _ runId phase => Some (key_of runId phase)
  | _ => None
  end.

Definition msg_settlement (msg : WorkerResponse) : option settlement :=
  match msg with
  | Result _ mimeType data _ _ =>
      Some (Resolved {| so_blob := {| blob_data := data; blob_type := mimeType |};
                        so_mime := mimeType;
                        so_bytes := N.of_nat (length data) |})
  | Error message _ _ => Some (Rejected message)
  | _ => None
  end.

(** The invariant of the registry: a pending promise has been created,
    has not been settled, and is stored under one key only; a promise not
    yet created has not been settled. *)
Definition registry_wf (a : App) : Prop :=
  (∀ k p, pendingRef a !! k = Some p → p < promises a ∧ settle_calls p a = []) ∧
  (∀ k1 k2 p, pendingRef a !! k1 = Some p → pendingRef a !! k2 = Some p → k1 = k2) ∧
  (∀ p, promises a ≤ p → settle_calls p a = []).

(** A promise that has been created and is in the registry no more, with
    the calls of its [resolve] and [reject] made so far. *)
Definition retired (calls : list settlement) (p : nat) (a : App) : Prop :=
  p < promises a ∧ (∀ k, pendingRef a !! k ≠ Some p) ∧ settle_calls p a = calls.

Lemma settle_calls_snoc p q o a a' :
  settlements a' = settlements a ++ [(q, o)] →
  settle_calls p a' = settle_calls p a ++ (if Nat.eqb q p then [o] else []).
Proof.
  unfold settle_calls. intros ->. rewrite List.filter_app, map_app. cbn.
  destruct (Nat.eqb q p); reflexivity.
Qed.

Lemma settle_calls_same p a a' :
  settlements a' = settlements a → settle_calls p a' = settle_calls p a.
Proof. unfold settle_calls. by intros ->. Qed.

Lemma settle_calls_other p q o a a' :
  settlements a' = settlements a ++ [(q, o)] → q ≠ p →
  settle_calls p a' = settle_calls p a.
Proof.
  intros Hs Hne. rewrite (settle_calls_snoc p q o a a' Hs).
  destruct (Nat.eqb_spec q p); [done|]. apply app_nil_r.
Qed.

Lemma uiLog_registry line a :
  pendingRef (uiLog nowIso line a) = pendingRef a ∧
  promises (uiLog nowIso line a) = promises a ∧
  settlements (uiLog nowIso line a) = settlements a.
Proof. done. Qed.

Lemma new_pending_registry key a :
  pendingRef (snd (new_pending key a)) = <[key := promises a]> (pendingRef a) ∧
  promises (snd (new_pending key a)) = S (promises a) ∧
  settlements (snd (new_pending key a)) = settlements a.
Proof. done. Qed.

(** What a terminal message does to the registry. *)
Lemma w_onmessage_matched msg a k p o :
  msg_key msg = Some k → msg_settlement msg = Some o →
  pendingRef a !! k = Some p →
  pendingRef (w_onmessage nowIso msg a) = delete k (pendingRef a) ∧
  promises (w_onmessage nowIso msg a) = promises a ∧
  settlements (w_onmessage nowIso msg a) = settlements a ++ [(p, o)].
Proof.
  destruct msg as [| |outputName mimeType data r ph|message r ph]; cbn;
    try discriminate; intros [= <-] [= <-] Hp; rewrite Hp; done.
Qed.

Lemma w_onmessage_unmatched msg a :
  (∀ k, msg_key msg = Some k → pendingRef a !! k = None) →
  pendingRef (w_onmessage nowIso msg a) = pendingRef a ∧
  promises (w_onmessage nowIso msg a) = promises a ∧
  settlements (w_onmessage nowIso msg a) = settlements a.
Proof.
  destruct msg as [| |outputName mimeType data r ph|message r ph]; cbn;
    intros Hk; try done.
  - rewrite (Hk _ eq_refl). cbn.
    destruct (String.eqb outputName "merged.webm"); [done|].
    destruct (String.eqb outputName "reencoded.mp4"); done.
  - rewrite (Hk _ eq_refl). done.
Qed.

(** Every message either matches a waiter or leaves the registry alone. *)
Lemma w_onmessage_cases msg a :
  (∃ k p o, msg_key msg = Some k ∧ msg_settlement msg = Some o ∧
            pendingRef a !! k = Some p) ∨
  (∀ k, msg_key msg = Some k → pendingRef a !! k = None).
Proof.
  destruct msg as [| |outputName mimeType data r ph|message r ph]; cbn;
    try (right; intros k; discriminate).
  - destruct (pendingRef a !! key_of r ph) as [p|] eqn:Hp.
    + left. eauto 10.
    + right. intros k [= <-]. exact Hp.
  - destruct (pendingRef a !! key_of r ph) as [p|] eqn:Hp.
    + left. eauto 10.
    + right. intros k [= <-]. exact Hp.
Qed.

Lemma registry_wf_initial : registry_wf initial_app.
Proof. repeat split; cbn; intros; try done. Qed.

Lemma registry_wf_step a ev : registry_wf a → registry_wf (page_step a ev).
Proof.
  intros (Hpend & Hinj & Hfresh). destruct ev as [key|msg]; cbn [page_step].
  - (* a promise is registered *)
    destruct (new_pending_registry key a) as (Hm & Hn & Hs).
    split; [|split]; rewrite ?Hm, ?Hn.
    + intros k p H. rewrite (settle_calls_same _ a _ Hs).
      destruct (decide (key = k)) as [->|Hne].
      * rewrite lookup_insert_eq in H. injection H as <-.
        split; [lia|]. by apply Hfresh.
      * rewrite lookup_insert_ne in H by done. apply Hpend in H.
        split; [lia|]. apply H.
    + intros k1 k2 p.
      destruct (decide (key = k1)) as [<-|H1], (decide (key = k2)) as [<-|H2];
        rewrite ?lookup_insert_eq, ?lookup_insert_ne by done; try done.
      * intros [= <-] H. apply Hpend in H. lia.
      * intros H [= <-]. apply Hpend in H. lia.
      * apply Hinj.
    + intros p Hp. rewrite (settle_calls_same _ a _ Hs). apply Hfresh. lia.
  - (* a message arrives *)
    destruct (w_onmessage_cases msg a) as [(k & p & o & Hk & Ho & Hp)|Hno].
    + destruct (w_onmessage_matched msg a k p o Hk Ho Hp) as (Hm & Hn & Hs).
      split; [|split]; rewrite ?Hm, ?Hn.
      * intros k' q H. apply lookup_delete_Some in H as [Hne H].
        rewrite (settle_calls_other q p o a _ Hs).
        -- by apply Hpend in H.
        -- intros ->. by apply Hne, (Hinj k k' q).
      * intros k1 k2 q H1 H2.
        apply lookup_delete_Some in H1 as [_ H1].
        apply lookup_delete_Some in H2 as [_ H2]. by apply (Hinj k1 k2 q).
      * intros q Hq. rewrite (settle_calls_other q p o a _ Hs).
        -- by apply Hfresh.
        -- apply Hpend in Hp. lia.
    + destruct (w_onmessage_unmatched msg a Hno) as (Hm & Hn & Hs).
      split; [|split]; rewrite ?Hm, ?Hn.
      * intros k q H. rewrite (settle_calls_same _ a _ Hs). by apply Hpend in H.
      * apply Hinj.
      * intros q Hq. rewrite (settle_calls_same _ a _ Hs). by apply Hfresh.
Qed.

Lemma registry_wf_run evs a : registry_wf a → registry_wf (page_run evs a).
Proof.
  revert a. induction evs as [|ev evs IH]; intros a Ha; [done|].
  apply IH. by apply registry_wf_step.
Qed.

(** Once a promise has left the registry, nothing calls its [resolve] or
    [reject] again. *)
Lemma retired_step calls p a ev : retired calls p a → retired calls p (page_step a ev).
Proof.
  intros (Hlt & Hgone & Hone). destruct ev as [key|msg]; cbn [page_step].
  - destruct (new_pending_registry key a) as (Hm & Hn & Hs).
    split; [|split]; rewrite ?Hm, ?Hn.
    + lia.
    + intros k. destruct (decide (key = k)) as [->|Hne].
      * rewrite lookup_insert_eq. intros [= Heq]. lia.
      * rewrite lookup_insert_ne by done. apply Hgone.
    + rewrite <- Hone. by apply settle_calls_same.
  - destruct (w_onmessage_cases msg a) as [(k & q & o & Hk & Ho & Hq)|Hno].
    + destruct (w_onmessage_matched msg a k q o Hk Ho Hq) as (Hm & Hn & Hs).
      split; [|split]; rewrite ?Hm, ?Hn; [done| |].
      * intros k' H'. apply lookup_delete_Some in H' as [_ H'].
        by apply (Hgone k').
      * rewrite (settle_calls_other p q o a _ Hs); [done|].
        intros ->. by apply (Hgone k).
    + destruct (w_onmessage_unmatched msg a Hno) as (Hm & Hn & Hs).
      split; [|split]; rewrite ?Hm, ?Hn, ?(settle_calls_same _ a _ Hs); done.
Qed.

Lemma retired_run calls p evs a :
  retired calls p a → retired calls p (page_run evs a).
Proof.
  revert a. induction evs as [|ev evs IH]; intros a Ha; [done|].
  apply IH. by apply retired_step.
Qed.

End Registry.

(** ** Settlement of pending promises *)

Section Correlation.
Context {E : Type} `{Engine E}.
Variable nowIso : nat → string.

(** What [await p] sees is the first call of [resolve] or [reject]. *)
Lemma settlement_of_head p a : settlement_of p a = head (settle_calls p a).
Proof.
  unfold settlement_of, settle_calls.
  induction (settlements a) as [|[q o] l IH]; [done|]. cbn.
  destruct (Nat.eqb q p); [done|]. exact IH.
Qed.

Lemma matched_retires msg a k p o :
  registry_wf a → msg_key msg = Some k → msg_settlement msg = Some o →
  pendingRef a !! k = Some p →
  retired [o] p (w_onmessage nowIso msg a).
Proof.
  intros (Hpend & Hinj & _) Hk Ho Hp.
  destruct (w_onmessage_matched nowIso msg a k p o Hk Ho Hp) as (Hm & Hn & Hs).
  destruct (Hpend k p Hp) as [Hlt Hnone].
  split; [|split].
  - by rewrite Hn.
  - intros k'. rewrite Hm. intros [Hne H']%lookup_delete_Some.
    by apply Hne, (Hinj k k' p).
  - rewrite (settle_calls_snoc p p o a _ Hs), Hnone, Nat.eqb_refl. done.
Qed.

(** C1.  In every state the page reaches, when a [result] or an [error]
    arrives whose key has a promise registered under it, the promise had
    not been settled before, the handler removes the key from the table
    and calls the promise's [resolve] (on a result) or [reject] (on an
    error) with what the message carries, and whatever is registered or
    arrives afterwards, messages with the same key included, that call
    stays the only one the promise ever receives. *)
Theorem pending_settled_exactly_once history msg k p o :
  let a := page_run nowIso history initial_app in
  let a' := w_onmessage nowIso msg a in
  msg_key msg = Some k → msg_settlement msg = Some o →
  pendingRef a !! k = Some p →
  settle_calls p a = [] ∧
  pendingRef a' !! k = None ∧
  settlements a' = settlements a ++ [(p, o)] ∧
  ∀ future,
    settle_calls p (page_run nowIso future a') = [o] ∧
    settlement_of p (page_run nowIso future a') = Some o.
Proof.
  intros a a' Hk Ho Hp.
  assert (Hwf : registry_wf a) by apply registry_wf_run, registry_wf_initial.
  destruct (w_onmessage_matched nowIso msg a k p o Hk Ho Hp) as (Hm & Hn & Hs).
  split; [by apply (proj1 Hwf k p)|].
  split; [unfold a'; rewrite Hm; apply lookup_delete_eq|].
  split; [exact Hs|].
  intros future.
  destruct (retired_run nowIso [o] p future a'
              (matched_retires msg a k p o Hwf Hk Ho Hp)) as (_ & _ & Hc).
  split; [exact Hc|]. by rewrite settlement_of_head, Hc.
Qed.

(** C2.  Registering under a key that already has a promise pending does
    not fail: the assignment [pendingRef.current[key] = ...] returns the
    new promise and stores it in place of the old one.  The old promise
    is in the table no more, and no message that arrives later settles
    it. *)
Theorem register_replaces_pending history key p (s : Sys E) :
  app s = page_run nowIso history initial_app →
  pendingRef (app s) !! key = Some p →
  ∃ s', register key s = (Ok (promises (app s)), s') ∧
        worker s' = worker s ∧
        pendingRef (app s') !! key = Some (promises (app s)) ∧
        p ≠ promises (app s) ∧
        (∀ k, pendingRef (app s') !! k ≠ Some p) ∧
        ∀ future, settle_calls p (page_run nowIso future (app s')) = [].
Proof.
  intros Hs Hp.
  assert (Hwf : registry_wf (app s))
    by (rewrite Hs; apply registry_wf_run, registry_wf_initial).
  destruct Hwf as (Hpend & Hinj & _). destruct (Hpend key p Hp) as [Hlt Hnone].
  eexists. split; [reflexivity|]. cbn.
  split; [reflexivity|]. split; [apply lookup_insert_eq|].
  split; [lia|].
  assert (Hgone : ∀ k, <[key:=promises (app s)]> (pendingRef (app s)) !! k ≠ Some p).
  { intros k. destruct (decide (key = k)) as [<-|Hne].
    - rewrite lookup_insert_eq. intros [= Heq]. lia.
    - rewrite lookup_insert_ne by done. intros Hk. by apply Hne, (Hinj key k p). }
  split; [exact Hgone|].
  intros future.
  refine (proj2 (proj2 (retired_run nowIso [] p future _ _))).
  split; [cbn; lia|]. split; [exact Hgone|exact Hnone].
Qed.

(** C3.  A [result] or an [error] whose key has no promise registered
    under it settles nothing and leaves the table of pending promises as
    it is.  An orphan [error] is reported in the log pane.  An orphan
    [result] is not: nothing is logged, and when its output name is
    [merged.webm] or [reencoded.mp4] the handler installs its data as the
    preview of that output. *)
Theorem orphan_message_handling msg k a :
  msg_key msg = Some k → pendingRef a !! k = None →
  let a' := w_onmessage nowIso msg a in
  pendingRef a' = pendingRef a ∧ promises a' = promises a ∧
  settlements a' = settlements a ∧
  match msg with
  | Error message runId phase =>
      logs a' = appendLog (logs a)
                  (nowIso (timestamps a) +:+ " " +:+ error_line message runId phase) ∧
      rawMerged a' = rawMerged a ∧ mp4 a' = mp4 a
  | Result outputName mimeType data _ _ =>
      let blob := {| blob_data := data; blob_type := mimeType |} in
      let url := "blob:" +:+ pretty (objectURLs a) in
      logs a' = logs a ∧
      rawMerged a' =
        (if String.eqb outputName "merged.webm"
         then Some {| label := "Raw merged (stream copy)"; ov_blob := blob;
                      ov_url := url; ov_mime := mimeType |}
         else rawMerged a) ∧
      mp4 a' =
        (if String.eqb outputName "merged.webm" then mp4 a
         else if String.eqb outputName "reencoded.mp4"
         then Some {| label := "Re-encoded MP4 (H.264)"; ov_blob := blob;
                      ov_url := url; ov_mime := mimeType |}
         else mp4 a)
  | _ => True
  end.
Proof.
  intros Hk Hnone a'.
  assert (Hno : ∀ k', msg_key msg = Some k' → pendingRef a !! k' = None)
    by (intros k' Hk'; congruence).
  destruct (w_onmessage_unmatched nowIso msg a Hno) as (Hm & Hn & Hs).
  split; [exact Hm|]. split; [exact Hn|]. split; [exact Hs|].
  destruct msg as [| |outputName mimeType data r ph|message r ph];
    try discriminate; injection Hk as <-; unfold a'; cbn; rewrite Hnone.
  - cbn. destruct (String.eqb outputName "merged.webm"); [done|].
    destruct (String.eqb outputName "reencoded.mp4"); done.
  - done.
Qed.

End Correlation.

Lemma pending_settled_exactly_once_witness :
  let now := λ _ : nat, "2025-01-01T00:00:00.000Z" in
  let msg := Result "merged.webm" "video/webm" [Byte.x1a; Byte.x45]
                    (Some "r1") (Some "merge") in
  let late := Error "late" (Some "r1") (Some "merge") in
  let a' := w_onmessage now msg (page_run now [Registers "r1:merge"] initial_app) in
  settle_calls 0 (page_run now [Arrives late; Arrives msg] a') =
  [Resolved {| so_blob := {| blob_data := [Byte.x1a; Byte.x45];
                             blob_type := "video/webm" |};
               so_mime := "video/webm"; so_bytes := 2 |}].
Proof.
  intros now msg late a'.
  refine (proj1 (proj2 (proj2 (proj2
    (pending_settled_exactly_once now [Registers "r1:merge"] msg "r1:merge" 0 _
       _ _ _))) [Arrives late; Arrives msg])); vm_compute; reflexivity.
Defined.

Lemma register_replaces_pending_witness :
  let now := λ _ : nat, "2025-01-01T00:00:00.000Z" in
  let s : Sys SimEngine :=
    {| app := page_run now [Registers "r1:merge"] initial_app;
       worker := sim_worker; sent := [] |} in
  ∃ s', register "r1:merge" s = (Ok (promises (app s)), s') ∧
        worker s' = worker s ∧
        pendingRef (app s') !! "r1:merge" = Some (promises (app s)) ∧
        0 ≠ promises (app s) ∧
        (∀ k, pendingRef (app s') !! k ≠ Some 0) ∧
        ∀ future, settle_calls 0 (page_run now future (app s')) = [].
Proof.
  intros now s.
  apply (register_replaces_pending now [Registers "r1:merge"] "r1:merge" 0 s);
    vm_compute; reflexivity.
Defined.

(** A second registration under a pending key returns a promise, and the
    result that arrives for the key resolves the second promise; the first
    one is never settled. *)
Lemma register_duplicate_key_counterexample :
  let now := λ _ : nat, "2025-01-01T00:00:00.000Z" in
  let s : Sys SimEngine :=
    {| app := page_run now [Registers "r1:merge"] initial_app;
       worker := sim_worker; sent := [] |} in
  let s' := snd (register "r1:merge" s) in
  let a'' := w_onmessage now (Result "merged.webm" "video/webm" []
                                     (Some "r1") (Some "merge")) (app s') in
  pendingRef (app s) !! "r1:merge" = Some 0 ∧
  fst (register "r1:merge" s) = Ok 1 ∧
  pendingRef (app s') !! "r1:merge" = Some 1 ∧
  times_settled 1 a'' = 1 ∧ times_settled 0 a'' = 0 ∧ pendingRef a'' = ∅.
Proof. vm_compute. repeat split; reflexivity. Qed.

Lemma orphan_message_handling_witness :
  let now := λ _ : nat, "2025-01-01T00:00:00.000Z" in
  let msg := Error "Aborted()" (Some "r1") (Some "mp4") in
  let a := page_run now [Registers "r1:merge"] initial_app in
  let a' := w_onmessage now msg a in
  pendingRef a' = pendingRef a ∧ promises a' = promises a ∧
  settlements a' = settlements a ∧
  logs a' = appendLog (logs a)
              (now (timestamps a) +:+ " " +:+
               error_line "Aborted()" (Some "r1") (Some "mp4")) ∧
  rawMerged a' = rawMerged a ∧ mp4 a' = mp4 a.
Proof.
  intros now msg a a'.
  apply (orphan_message_handling now msg "r1:mp4" a); vm_compute; reflexivity.
Defined.

(** An orphan result named [merged.webm] is not logged, and it is not
    dropped: it becomes the preview of the merged output. *)
Lemma orphan_result_counterexample :
  let now := λ _ : nat, "2025-01-01T00:00:00.000Z" in
  let msg := Result "merged.webm" "video/webm" [Byte.x1a; Byte.x45]
                    (Some "X") (Some "merge") in
  let a' := w_onmessage now msg initial_app in
  pendingRef initial_app !! "X:merge" = None ∧
  logs a' = logs initial_app ∧
  rawMerged initial_app = None ∧
  rawMerged a' =
    Some {| label := "Raw merged (stream copy)";
            ov_blob := {| blob_data := [Byte.x1a; Byte.x45];
                          blob_type := "video/webm" |};
            ov_url := "blob:0"; ov_mime := "video/webm" |}.
Proof. vm_compute. repeat split; reflexivity. Qed.

(** ** Frame reasoning: what every step of a computation preserves *)

Section Steps.
Context {S : Type} (R : relation S) `{!PreOrder R}.

(** [steps R m]: whatever [m] returns, the state it ends in is related by
    [R] to the state it started from. *)
Definition steps {A} (m : M S A) : Prop := ∀ s, R s (snd (m s)).

Lemma steps_ret {A} (a : A) : steps (mret a).
Proof. intros s. cbn. reflexivity. Qed.

Lemma steps_throw {A} e : steps (@throw S A e).
Proof. intros s. cbn. reflexivity. Qed.

Lemma steps_gets {A} (f : S → A) : steps (gets f).
Proof. intros s. cbn. reflexivity. Qed.

Lemma steps_modify (f : S → S) : (∀ s, R s (f s)) → steps (modify f).
Proof. intros Hf s. apply Hf. Qed.

Lemma steps_bind {A B} (m : M S A) (k : A → M S B) :
  steps m → (∀ a, steps (k a)) → steps (m ≫= k).
Proof.
  intros Hm Hk s. specialize (Hm s). unfold mbind, M_bind, bind.
  destruct (m s) as [[a| |] s1]; cbn in *; [|done..].
  etrans; [exact Hm|apply Hk].
Qed.

Lemma steps_fmap {A B} (f : A → B) (m : M S A) : steps m → steps (f <$> m).
Proof.
  intros Hm s. specialize (Hm s). unfold fmap, M_fmap, bind, ret.
  destruct (m s) as [[a| |] s1]; done.
Qed.

Lemma steps_catch {A} (m : M S A) (h : string → M S A) :
  steps m → (∀ e, steps (h e)) → steps (catch m h).
Proof.
  intros Hm Hh s. specialize (Hm s). unfold catch.
  destruct (m s) as [[a|e|] s1]; cbn in *; [done| |done].
  etrans; [exact Hm|apply Hh].
Qed.

Lemma steps_forEach {A} (f : A → M S unit) xs :
  (∀ x, steps (f x)) → steps (forEach f xs).
Proof.
  intros Hf. induction xs as [|x xs IH]; cbn [forEach].
  - apply steps_ret.
  - apply steps_bind; [apply Hf|]. intros _. exact IH.
Qed.

End Steps.

(** ** The worker: what it posts *)

Section WorkerFacts.
Context {E : Type} `{Engine E}.

(** [advance P w w']: from [w] to [w'] the worker has posted messages
    that all satisfy [P], and it has not gone back from loaded. *)
Definition advance (P : WorkerResponse → Prop) (w w' : Worker E) : Prop :=
  (loaded w = true → loaded w' = true) ∧
  ∃ l, posted w' = posted w ++ l ∧ Forall P l.

Global Instance advance_preorder P : PreOrder (advance P).
Proof.
  split.
  - intros w. split; [done|]. exists []. by rewrite app_nil_r.
  - intros w1 w2 w3 (Hl1 & l1 & Hp1 & HP1) (Hl2 & l2 & Hp2 & HP2).
    split; [auto|]. exists (l1 ++ l2).
    rewrite Hp2, Hp1, app_assoc. split; [done|]. by apply Forall_app.
Qed.

Definition count_loaded (l : list WorkerResponse) : nat :=
  length (List.filter is_loaded_msg l).

Lemma count_loaded_app l1 l2 :
  count_loaded (l1 ++ l2) = count_loaded l1 + count_loaded l2.
Proof. unfold count_loaded. by rewrite List.filter_app, length_app. Qed.

Lemma count_loaded_none l :
  Forall (λ m, is_loaded_msg m = false) l → count_loaded l = 0.
Proof.
  unfold count_loaded. induction 1 as [|m l Hm _ IH]; [done|].
  cbn. by rewrite Hm.
Qed.

Lemma progress_of_app n l1 l2 :
  progress_of n (l1 ++ l2) = progress_of n l1 ++ progress_of n l2.
Proof. unfold progress_of. by rewrite map_app, concat_app. Qed.

Lemma progress_of_Forall (P : WorkerResponse → Prop) n lines :
  (∀ l, P (Progress l)) → Forall P (progress_of n lines).
Proof.
  intros HP. unfold progress_of. induction lines as [|l lines IH]; cbn; [done|].
  apply Forall_app. split; [|exact IH].
  clear IH. induction n as [|n IHn]; cbn; [done|].
  constructor; [apply HP|exact IHn].
Qed.

Lemma steps_post P msg : P msg → steps (advance P) (post msg).
Proof. intros HP w. split; [done|]. exists [msg]. cbn. by repeat constructor. Qed.

Lemma steps_on_log P : steps (advance P) on_log.
Proof. intros w. split; [done|]. exists []. cbn. by rewrite app_nil_r. Qed.

Lemma steps_set_loaded P : steps (advance P) (set_loaded true).
Proof. intros w. split; [done|]. exists []. cbn. by rewrite app_nil_r. Qed.

Lemma steps_call P {A} (op : E → outcome A * list string * E) :
  (∀ l, P (Progress l)) → steps (advance P) (call op).
Proof.
  intros HP w. unfold call. destruct (op (ffmpeg w)) as [[r lines] e'].
  split; [done|]. eexists. split; [reflexivity|]. by apply progress_of_Forall.
Qed.

Lemma steps_fetch P url mime : steps (advance P) (fetch url mime).
Proof.
  intros w. unfold fetch. destruct (toBlobURL url mime (ffmpeg w)) as [r e'].
  split; [done|]. exists []. cbn. by rewrite app_nil_r.
Qed.

(** Loading posts [progress] and [loaded] only. *)
Lemma steps_ensureLoaded P :
  (∀ l, P (Progress l)) → P Loaded → steps (advance P) ensureLoaded.
Proof.
  intros HP HL. unfold ensureLoaded.
  apply steps_bind; [apply _|apply steps_gets; apply _|]. intros [|].
  { apply (steps_ret _). }
  repeat first
    [ apply steps_bind; [apply _| |intros ?]
    | apply steps_catch; [apply _| |intros ?]
    | apply steps_on_log | apply steps_fetch | apply steps_set_loaded
    | apply steps_call; exact HP
    | apply steps_post; exact HL ].
Qed.

(** The two stage branches post [progress] and one [result]. *)
Lemma steps_concat_branch P req :
  (∀ l, P (Progress l)) → (∀ o m d r p, P (Result o m d r p)) →
  steps (advance P) (concat_branch req).
Proof.
  intros HP HR. unfold concat_branch.
  repeat first
    [ apply steps_bind; [apply _| |intros ?]
    | apply steps_forEach; [apply _|intros ?]
    | apply steps_call; exact HP
    | apply steps_post; apply HR ].
Qed.

Lemma steps_reencode_branch P req :
  (∀ l, P (Progress l)) → (∀ o m d r p, P (Result o m d r p)) →
  steps (advance P) (reencode_branch req).
Proof.
  intros HP HR. unfold reencode_branch.
  repeat first
    [ apply steps_bind; [apply _| |intros ?]
    | apply steps_call; exact HP
    | apply steps_post; apply HR ].
Qed.

(** Once the engine is loaded, [ensureLoaded] does nothing. *)
Lemma ensureLoaded_loaded w : loaded w = true → ensureLoaded w = (Ok tt, w).
Proof.
  intros Hl. unfold ensureLoaded, mbind, M_bind, bind, gets. by rewrite Hl.
Qed.

(** What the handler does after [ensureLoaded]. *)
Definition dispatch (req : WorkerRequest) : M (Worker E) unit :=
  if String.eqb (req_type req) "load" then ret tt else
  if String.eqb (req_type req) "concat" then concat_branch req else
  if String.eqb (req_type req) "reencode" then reencode_branch req else
  ret tt.

Lemma onmessage_body_dispatch req w :
  onmessage_body req w = (ensureLoaded ;; dispatch req) w.
Proof.
  unfold onmessage_body, dispatch.
  destruct (String.eqb (req_type req) "load"); [|done].
  unfold mbind, M_bind, bind, ret.
  by destruct (ensureLoaded w) as [[[]| |] w'].
Qed.

Lemma steps_dispatch P req :
  (∀ l, P (Progress l)) → (∀ o m d r p, P (Result o m d r p)) →
  steps (advance P) (dispatch req).
Proof.
  intros HP HR. unfold dispatch.
  destruct (String.eqb (req_type req) "load"); [apply (steps_ret _)|].
  destruct (String.eqb (req_type req) "concat"); [by apply steps_concat_branch|].
  destruct (String.eqb (req_type req) "reencode");
    [by apply steps_reencode_branch|apply (steps_ret _)].
Qed.

(** A loaded worker stays loaded and never announces [loaded] again. *)
Lemma self_onmessage_loaded req w :
  loaded w = true →
  advance (λ m, is_loaded_msg m = false) w (self_onmessage req w).
Proof.
  intros Hl. unfold self_onmessage, catch.
  rewrite onmessage_body_dispatch. unfold mbind, M_bind, bind.
  rewrite (ensureLoaded_loaded w Hl).
  pose proof (steps_dispatch (λ m, is_loaded_msg m = false) req
                (λ _, eq_refl) (λ _ _ _ _ _, eq_refl) w) as Hd.
  destruct (dispatch req w) as [[[]|e|] w1]; cbn in *; [done| |done].
  etrans; [exact Hd|]. by apply steps_post.
Qed.

Lemma serve_loaded reqs w :
  loaded w = true →
  advance (λ m, is_loaded_msg m = false) w
          (foldl (λ w r, self_onmessage r w) w reqs).
Proof.
  revert w. induction reqs as [|r reqs IH]; intros w Hl; [reflexivity|].
  cbn. etrans; [apply (self_onmessage_loaded r w Hl)|].
  apply IH. by apply (self_onmessage_loaded r w Hl).
Qed.

(** *** Loading *)

(** The attempt with the multi-threaded core fails: the worker script
    cannot be fetched, or [load] with it throws. *)
Definition rich_load_fails (core wasm : string) (e : E)
    (lines : list string) (e' : E) : Prop :=
  (∃ m, toBlobURL (coreBase +:+ "/ffmpeg-core.worker.js") "text/javascript" e
        = (Throw m, e') ∧ lines = []) ∨
  (∃ wrk e1 m,
      toBlobURL (coreBase +:+ "/ffmpeg-core.worker.js") "text/javascript" e
      = (Ok wrk, e1) ∧
      ffmpeg_load {| coreURL := core; wasmURL := wasm; workerURL := Some wrk |} e1
      = (Throw m, lines, e')).

(** *** Stage requests in terms of the engine's operations *)

(** The engine's side of a [for] loop of calls: the operations one after
    the other, as long as they return, with the lines they log. *)
Fixpoint engine_each {A} (op : A → E → outcome unit * list string * E)
    (xs : list A) (e : E) : outcome unit * list string * E :=
  match xs with
  | [] => (Ok tt, [], e)
  | x :: xs' =>
      match op x e with
      | (Ok _, l, e1) =>
          let '(r, l', e2) := engine_each op xs' e1 in (r, l ++ l', e2)
      | (r, l, e1) => (r, l, e1)
      end
  end.

(** The engine carries out the operations of a [concat] request, each
    from the state the previous one left: [lines] is what it logs, [data]
    what [readFile] returns and [e'] the state it ends in. *)
Definition concat_engine_ok (req : WorkerRequest) (e : E)
    (lines : list string) (data : bytes) (e' : E) : Prop :=
  ∃ l1 e1 l2 e2 l3 e3 l4 e4 l5 e5 l6 e6 l7,
    engine_each (λ seg, ffmpeg_writeFile (seg_name seg) (seg_data seg))
                (req_segments req) e = (Ok tt, l1, e1) ∧
    ffmpeg_writeFile "list.txt"
      (list_byte_of_string (concat_list (req_segments req))) e1
      = (Ok tt, l2, e2) ∧
    ffmpeg_exec ["-f"; "concat"; "-safe"; "0"; "-i"; "list.txt";
                 "-c"; "copy"; req_outputName req] e2 = (Ok tt, l3, e3) ∧
    ffmpeg_readFile (req_outputName req) e3 = (Ok data, l4, e4) ∧
    ffmpeg_deleteFile "list.txt" e4 = (Ok tt, l5, e5) ∧
    engine_each (λ seg, ffmpeg_deleteFile (seg_name seg))
                (req_segments req) e5 = (Ok tt, l6, e6) ∧
    ffmpeg_deleteFile (req_outputName req) e6 = (Ok tt, l7, e') ∧
    lines = l1 ++ l2 ++ l3 ++ l4 ++ l5 ++ l6 ++ l7.

(** The same for a [reencode] request. *)
Definition reencode_engine_ok (req : WorkerRequest) (e : E)
    (lines : list string) (data : bytes) (e' : E) : Prop :=
  ∃ l1 e1 l2 e2 l3 e3 l4 e4 l5,
    ffmpeg_writeFile (req_inputName req) (req_inputData req) e
      = (Ok tt, l1, e1) ∧
    ffmpeg_exec (["-i"; req_inputName req] ++ req_args req
                   ++ [req_outputName req]) e1 = (Ok tt, l2, e2) ∧
    ffmpeg_readFile (req_outputName req) e2 = (Ok data, l3, e3) ∧
    ffmpeg_deleteFile (req_inputName req) e3 = (Ok tt, l4, e4) ∧
    ffmpeg_deleteFile (req_outputName req) e4 = (Ok tt, l5, e') ∧
    lines = l1 ++ l2 ++ l3 ++ l4 ++ l5.

Definition stage_engine_ok (req : WorkerRequest) (e : E)
    (lines : list string) (data : bytes) (e' : E) : Prop :=
  (req_type req = "concat" ∧ concat_engine_ok req e lines data e') ∨
  (req_type req = "reencode" ∧ reencode_engine_ok req e lines data e').

(** The [result] that answers a stage request, given the data read. *)
Definition stage_result (req : WorkerRequest) (data : bytes) : WorkerResponse :=
  Result (req_outputName req)
         (if String.eqb (req_type req) "concat" then "video/webm"
          else if endsWith (req_outputName req) ".mp4" then "video/mp4"
          else "application/octet-stream")
         data (req_runId req) (req_phase req).

(** The worker after the engine has logged [lines] and moved to [e]. *)
Definition engine_moved (w : Worker E) (lines : list string) (e : E) : Worker E :=
  {| loaded := loaded w; listeners := listeners w; ffmpeg := e;
     posted := posted w ++ progress_of (listeners w) lines |}.

Lemma engine_moved_nil w : engine_moved w [] (ffmpeg w) = w.
Proof. destruct w. unfold engine_moved. cbn. by rewrite app_nil_r. Qed.

Lemma engine_moved_twice w l1 e1 l2 e2 :
  engine_moved (engine_moved w l1 e1) l2 e2 = engine_moved w (l1 ++ l2) e2.
Proof.
  unfold engine_moved. cbn. by rewrite progress_of_app, app_assoc.
Qed.

Lemma call_eq {A} (op : E → outcome A * list string * E) w r l e1 :
  op (ffmpeg w) = (r, l, e1) → call op w = (r, engine_moved w l e1).
Proof. intros Hop. unfold call. by rewrite Hop. Qed.

Lemma forEach_call_eq {A} (op : A → E → outcome unit * list string * E)
    xs w r l e1 :
  engine_each op xs (ffmpeg w) = (r, l, e1) →
  forEach (λ x, call (op x)) xs w = (r, engine_moved w l e1).
Proof.
  revert w l. induction xs as [|x xs IH]; intros w l; cbn [engine_each forEach].
  - intros [= <- <- <-]. by rewrite engine_moved_nil.
  - unfold mbind, M_bind, bind.
    destruct (op x (ffmpeg w)) as [[[[]|m|] lx] ex] eqn:Hx;
      rewrite (call_eq _ _ _ _ _ Hx).
    + destruct (engine_each op xs ex) as [[r' l'] e2] eqn:Hxs.
      intros [= <- <- <-].
      rewrite (IH (engine_moved w lx ex) l' Hxs). by rewrite engine_moved_twice.
    + by intros [= <- <- <-].
    + by intros [= <- <- <-].
Qed.

(** A loaded worker serves a stage request whose engine operations all
    succeed with the progress of the lines logged and then the [result]
    that carries the data read; it posts no [error]. *)
Lemma stage_request_served req w lines data e' :
  loaded w = true → stage_engine_ok req (ffmpeg w) lines data e' →
  self_onmessage req w =
  {| loaded := true; listeners := listeners w; ffmpeg := e';
     posted := posted w ++ progress_of (listeners w) lines
               ++ [stage_result req data] |}.
Proof.
  intros Hl Hok. unfold self_onmessage, catch.
  rewrite onmessage_body_dispatch. unfold mbind at 1, M_bind, bind.
  rewrite (ensureLoaded_loaded w Hl). unfold dispatch, stage_result.
  destruct Hok as [[Hty Hok]|[Hty Hok]]; rewrite Hty.
  - change (String.eqb "concat" "load") with false.
    change (String.eqb "concat" "concat") with true. cbv iota.
    destruct Hok as (l1 & e1 & l2 & e2 & l3 & e3 & l4 & e4 & l5 & e5 & l6 & e6
                     & l7 & H1 & H2 & H3 & H4 & H5 & H6 & H7 & ->).
    unfold concat_branch, mbind, M_bind, bind.
    rewrite (forEach_call_eq _ _ _ _ _ _ H1).
    rewrite (call_eq _ (engine_moved w l1 e1) _ _ _ H2), engine_moved_twice.
    rewrite (call_eq _ (engine_moved w _ e2) _ _ _ H3), engine_moved_twice.
    rewrite (call_eq _ (engine_moved w _ e3) _ _ _ H4), engine_moved_twice.
    rewrite (call_eq _ (engine_moved w _ e4) _ _ _ H5), engine_moved_twice.
    rewrite (forEach_call_eq _ _ (engine_moved w _ e5) _ _ _ H6),
      engine_moved_twice.
    rewrite (call_eq _ (engine_moved w _ e6) _ _ _ H7), engine_moved_twice.
    unfold post, modify, engine_moved. cbn. rewrite Hl.
    by rewrite <- !app_assoc.
  - change (String.eqb "reencode" "load") with false.
    change (String.eqb "reencode" "concat") with false.
    change (String.eqb "reencode" "reencode") with true. cbv iota.
    destruct Hok as (l1 & e1 & l2 & e2 & l3 & e3 & l4 & e4 & l5
                     & H1 & H2 & H3 & H4 & H5 & ->).
    unfold reencode_branch, mbind, M_bind, bind.
    rewrite (call_eq _ w _ _ _ H1).
    rewrite (call_eq _ (engine_moved w _ e1) _ _ _ H2), engine_moved_twice.
    rewrite (call_eq _ (engine_moved w _ e2) _ _ _ H3), engine_moved_twice.
    rewrite (call_eq _ (engine_moved w _ e3) _ _ _ H4), engine_moved_twice.
    rewrite (call_eq _ (engine_moved w _ e4) _ _ _ H5), engine_moved_twice.
    unfold post, modify, engine_moved. cbn. rewrite Hl.
    by rewrite <- !app_assoc.
Qed.

(** C9.  When the first attempt of [ensureLoaded], with the worker script,
    fails and the second, with the core and the wasm only, succeeds, the
    worker becomes loaded and posts [loaded] once; every request served
    afterwards finds the worker loaded, and no further [loaded] is posted.
    A [concat] or a [reencode] request served afterwards, whose engine
    operations all succeed, is answered without loading again: the worker
    posts the progress of the lines the engine logs and then the [result]
    with the data read from the engine, and no [error]. *)
Theorem ensureLoaded_falls_back w core wasm e1 e2 e3 e4 lines_r lines_d :
  loaded w = false →
  toBlobURL (coreBase +:+ "/ffmpeg-core.js") "text/javascript" (ffmpeg w)
    = (Ok core, e1) →
  toBlobURL (coreBase +:+ "/ffmpeg-core.wasm") "application/wasm" e1
    = (Ok wasm, e2) →
  rich_load_fails core wasm e2 lines_r e3 →
  ffmpeg_load {| coreURL := core; wasmURL := wasm; workerURL := None |} e3
    = (Ok tt, lines_d, e4) →
  let w' := {| loaded := true; listeners := S (listeners w); ffmpeg := e4;
               posted := posted w
                         ++ progress_of (S (listeners w)) (lines_r ++ lines_d)
                         ++ [Loaded] |} in
  ensureLoaded w = (Ok tt, w') ∧
  count_loaded (posted w') = S (count_loaded (posted w)) ∧
  (∀ reqs, let w'' := foldl (λ w r, self_onmessage r w) w' reqs in
           loaded w'' = true ∧
           count_loaded (posted w'') = S (count_loaded (posted w))) ∧
  (∀ reqs req lines data e',
      let w'' := foldl (λ w r, self_onmessage r w) w' reqs in
      stage_engine_ok req (ffmpeg w'') lines data e' →
      self_onmessage req w'' =
      {| loaded := true; listeners := listeners w''; ffmpeg := e';
         posted := posted w'' ++ progress_of (listeners w'') lines
                   ++ [stage_result req data] |}).
Proof.
  intros Hl Hcore Hwasm Hrich Hdeg w'.
  assert (Hcount : count_loaded (posted w') = S (count_loaded (posted w))).
  { unfold w'. cbn [posted]. rewrite !count_loaded_app.
    rewrite (count_loaded_none (progress_of _ _))
      by (by apply progress_of_Forall). cbn. lia. }
  split; [|split; [exact Hcount|split]].
  - unfold ensureLoaded, mbind, M_bind, bind, gets, catch. rewrite Hl.
    unfold on_log, modify, fetch, call. cbn.
    rewrite Hcore. cbn. rewrite Hwasm. cbn.
    destruct Hrich as [(m & Hw & ->)|(wrk & e' & m & Hw & Hload)]; rewrite Hw; cbn.
    + rewrite Hdeg. unfold w', post, modify. cbn. by rewrite <- app_assoc.
    + rewrite Hload. cbn. rewrite Hdeg. unfold w', post, modify. cbn.
      by rewrite progress_of_app, <- !app_assoc.
  - intros reqs w''.
    destruct (serve_loaded reqs w' eq_refl) as (Hl' & l & Hp & Hnone).
    split; [by apply Hl'|]. unfold w''. rewrite Hp, count_loaded_app, Hcount.
    rewrite (count_loaded_none l Hnone). lia.
  - intros reqs req lines data e' w'' Hok.
    destruct (serve_loaded reqs w' eq_refl) as (Hl' & _).
    apply stage_request_served; [by apply Hl'|exact Hok].
Qed.

(** *** Requests of an unknown type *)

(** C10.  A request whose type is none of [load], [concat] and [reencode]
    makes the handler load the engine when it is not loaded yet, and
    nothing else.  When loading returns, neither a [result] nor an [error]
    is posted; when loading throws, the [catch] of the handler posts an
    [error] that carries the run and the phase of the request. *)
Theorem unknown_request_reply req w :
  req_type req ≠ "load" → req_type req ≠ "concat" → req_type req ≠ "reencode" →
  let w' := self_onmessage req w in
  (loaded w = true → w' = w) ∧
  ∃ l, Forall (λ m, is_terminal m = false) l ∧
       match ensureLoaded w with
       | (Throw message, w1) =>
           posted w1 = posted w ++ l ∧
           posted w' = posted w1 ++ [Error message (req_runId req) (req_phase req)]
       | (_, w1) => w' = w1 ∧ posted w' = posted w ++ l
       end.
Proof.
  intros Hload Hconcat Hreencode w'.
  assert (Hd : ∀ w1, dispatch req w1 = (Ok tt, w1)).
  { intros w1. unfold dispatch.
    rewrite (proj2 (String.eqb_neq _ _) Hload),
            (proj2 (String.eqb_neq _ _) Hconcat),
            (proj2 (String.eqb_neq _ _) Hreencode). done. }
  assert (Hw' : w' = snd (catch (ensureLoaded ;; dispatch req)
                   (λ message, post (Error message (req_runId req) (req_phase req))) w)).
  { unfold w', self_onmessage, catch. by rewrite onmessage_body_dispatch. }
  split.
  - intros Hl. rewrite Hw'. unfold catch, mbind, M_bind, bind.
    by rewrite (ensureLoaded_loaded w Hl), Hd.
  - destruct (steps_ensureLoaded (λ m, is_terminal m = false)
                (λ _, eq_refl) eq_refl w) as (_ & l & Hp & Hl).
    exists l. split; [exact Hl|].
    rewrite Hw'. unfold catch, mbind, M_bind, bind.
    destruct (ensureLoaded w) as [[[]|message|] w1]; cbn in *;
      rewrite ?Hd; cbn; done.
Qed.

End WorkerFacts.

(** *** Cleanup of the engine's files *)

Section Cleanup.
Context {E : Type} `{EngineLaws E}.

Lemma call_Ok {A} (op : E → outcome A * list string * E) w a w' :
  call op w = (Ok a, w') → ∃ lines, op (ffmpeg w) = (Ok a, lines, ffmpeg w').
Proof.
  unfold call. destruct (op (ffmpeg w)) as [[r lines] e'].
  intros [= -> <-]. by exists lines.
Qed.

Lemma post_Ok msg (w w' : Worker E) :
  post msg w = (Ok tt, w') → ffmpeg w' = ffmpeg w ∧ posted w' = posted w ++ [msg].
Proof. by intros [= <-]. Qed.

Lemma call_deleteFile_files n w w' :
  call (ffmpeg_deleteFile n) w = (Ok tt, w') →
  ffmpeg_files (ffmpeg w') = ffmpeg_files (ffmpeg w) ∖ {[n]}.
Proof. intros [lines Hd]%call_Ok. by apply deleteFile_files in Hd. Qed.

Lemma forEach_deleteFile_files segs w w' :
  forEach (λ seg, call (ffmpeg_deleteFile (seg_name seg))) segs w = (Ok tt, w') →
  ffmpeg_files (ffmpeg w') =
  ffmpeg_files (ffmpeg w) ∖ list_to_set (map seg_name segs).
Proof.
  revert w. induction segs as [|seg segs IH]; intros w; cbn [forEach].
  - intros [= <-]. cbn. set_solver.
  - intros ([] & w1 & Hd & Hrest)%bind_Ok.
    apply call_deleteFile_files in Hd. apply IH in Hrest.
    rewrite Hrest, Hd. cbn. set_solver.
Qed.

(** The files the worker writes for a request, or has the engine write:
    for [concat] the segments, the list and the output; for [reencode] the
    input and the output. *)
Definition artifacts (req : WorkerRequest) : list string :=
  if String.eqb (req_type req) "concat"
  then map seg_name (req_segments req) ++ ["list.txt"; req_outputName req]
  else [req_inputName req; req_outputName req].

(** [exec] is reached and throws [message]: the writes before it have
    succeeded, [lines] is what the engine has logged and [e'] the state
    [exec] leaves. *)
Definition exec_fails (req : WorkerRequest) (e : E)
    (lines : list string) (message : string) (e' : E) : Prop :=
  (req_type req = "concat" ∧
   ∃ l1 e1 l2 e2 l3,
     engine_each (λ seg, ffmpeg_writeFile (seg_name seg) (seg_data seg))
                 (req_segments req) e = (Ok tt, l1, e1) ∧
     ffmpeg_writeFile "list.txt"
       (list_byte_of_string (concat_list (req_segments req))) e1
       = (Ok tt, l2, e2) ∧
     ffmpeg_exec ["-f"; "concat"; "-safe"; "0"; "-i"; "list.txt";
                  "-c"; "copy"; req_outputName req] e2
       = (Throw message, l3, e') ∧
     lines = l1 ++ l2 ++ l3) ∨
  (req_type req = "reencode" ∧
   ∃ l1 e1 l2,
     ffmpeg_writeFile (req_inputName req) (req_inputData req) e
       = (Ok tt, l1, e1) ∧
     ffmpeg_exec (["-i"; req_inputName req] ++ req_args req
                    ++ [req_outputName req]) e1 = (Throw message, l2, e') ∧
     lines = l1 ++ l2).

Lemma exec_fails_served req w lines message e' :
  loaded w = true → exec_fails req (ffmpeg w) lines message e' →
  self_onmessage req w =
  {| loaded := true; listeners := listeners w; ffmpeg := e';
     posted := posted w ++ progress_of (listeners w) lines
               ++ [Error message (req_runId req) (req_phase req)] |}.
Proof.
  intros Hl Hfail. unfold self_onmessage, catch.
  rewrite onmessage_body_dispatch. unfold mbind at 1, M_bind, bind.
  rewrite (ensureLoaded_loaded w Hl). unfold dispatch.
  destruct Hfail as [[Hty Hfail]|[Hty Hfail]]; rewrite Hty.
  - change (String.eqb "concat" "load") with false.
    change (String.eqb "concat" "concat") with true. cbv iota.
    destruct Hfail as (l1 & e1 & l2 & e2 & l3 & H1 & H2 & H3 & ->).
    unfold concat_branch, mbind, M_bind, bind.
    rewrite (forEach_call_eq _ _ _ _ _ _ H1).
    rewrite (call_eq _ (engine_moved w l1 e1) _ _ _ H2), engine_moved_twice.
    rewrite (call_eq _ (engine_moved w _ e2) _ _ _ H3), engine_moved_twice.
    unfold post, modify, engine_moved. cbn. rewrite Hl.
    by rewrite <- !app_assoc.
  - change (String.eqb "reencode" "load") with false.
    change (String.eqb "reencode" "concat") with false.
    change (String.eqb "reencode" "reencode") with true. cbv iota.
    destruct Hfail as (l1 & e1 & l2 & H1 & H2 & ->).
    unfold reencode_branch, mbind, M_bind, bind.
    rewrite (call_eq _ w _ _ _ H1).
    rewrite (call_eq _ (engine_moved w _ e1) _ _ _ H2), engine_moved_twice.
    unfold post, modify, engine_moved. cbn. rewrite Hl.
    by rewrite <- !app_assoc.
Qed.

(** C4.  When a [concat] or a [reencode] request runs to its end, the
    handler has deleted every file of the request from the engine before
    it posts the [result]: none of them is in the engine's file system
    afterwards.  The deletions are the last statements of the [try]
    block, and the [catch] block deletes nothing: when a step throws, the
    handler posts the [error] and calls the engine no more, so the engine
    stays in the state the failing step left.  In particular, when [exec]
    throws on a loaded worker, the engine is left as [exec] left it, after
    the writes and with no deletion. *)
Theorem artifacts_deleted_on_success req w :
  req_type req = "concat" ∨ req_type req = "reencode" →
  (∀ w', onmessage_body req w = (Ok tt, w') →
     self_onmessage req w = w' ∧
     (∃ mime data,
         last (posted w') = Some (Result (req_outputName req) mime data
                                         (req_runId req) (req_phase req))) ∧
     ∀ n, n ∈ artifacts req → n ∉ ffmpeg_files (ffmpeg w')) ∧
  (∀ message w1, onmessage_body req w = (Throw message, w1) →
     self_onmessage req w =
     {| loaded := loaded w1; listeners := listeners w1; ffmpeg := ffmpeg w1;
        posted := posted w1
                  ++ [Error message (req_runId req) (req_phase req)] |}) ∧
  (∀ lines message e',
     loaded w = true → exec_fails req (ffmpeg w) lines message e' →
     self_onmessage req w =
     {| loaded := true; listeners := listeners w; ffmpeg := e';
        posted := posted w ++ progress_of (listeners w) lines
                  ++ [Error message (req_runId req) (req_phase req)] |}).
Proof.
  intros Hty. split; [|split].
  2:{ intros message w1 Hbody. unfold self_onmessage, catch. by rewrite Hbody. }
  2:{ intros lines message e'. apply exec_fails_served. }
  intros w' Hbody.
  split; [unfold self_onmessage, catch; by rewrite Hbody|].
  rewrite onmessage_body_dispatch in Hbody.
  apply bind_Ok in Hbody as ([] & w0 & _ & Hd).
  unfold dispatch, artifacts in *. destruct Hty as [Hty|Hty]; rewrite Hty in *; cbn in Hd |- *.
  - unfold concat_branch in Hd.
    apply bind_Ok in Hd as ([] & wa & _ & Hd).
    apply bind_Ok in Hd as ([] & wb & _ & Hd).
    apply bind_Ok in Hd as ([] & wc & _ & Hd).
    apply bind_Ok in Hd as (outBuf & wd & _ & Hd).
    apply bind_Ok in Hd as ([] & we & Hlist%call_deleteFile_files & Hd).
    apply bind_Ok in Hd as ([] & wf & Hsegs%forEach_deleteFile_files & Hd).
    apply bind_Ok in Hd as ([] & wg & Hout%call_deleteFile_files & Hd).
    apply post_Ok in Hd as [Hf Hp].
    split.
    + exists "video/webm", outBuf. by rewrite Hp, last_snoc.
    + intros n Hn. rewrite Hf, Hout, Hsegs, Hlist.
      apply elem_of_app in Hn as [Hn|Hn]; set_solver.
  - unfold reencode_branch in Hd.
    apply bind_Ok in Hd as ([] & wa & _ & Hd).
    apply bind_Ok in Hd as ([] & wb & _ & Hd).
    apply bind_Ok in Hd as (outBuf & wc & _ & Hd).
    apply bind_Ok in Hd as ([] & wd & Hin%call_deleteFile_files & Hd).
    apply bind_Ok in Hd as ([] & we & Hout%call_deleteFile_files & Hd).
    apply post_Ok in Hd as [Hf Hp].
    split.
    + eexists _, outBuf. by rewrite Hp, last_snoc.
    + intros n Hn. rewrite Hf, Hout, Hin. set_solver.
Qed.

End Cleanup.

(** *** The worker on the simulated engine *)

(** A [concat] of one segment, on an engine whose [exec] runs and on one
    whose [exec] throws. *)
Lemma artifacts_deleted_on_success_witness :
  let req := concat_request "r1" one_segment in
  let w' := snd (onmessage_body req (sim_loaded sim_fresh)) in
  (self_onmessage req (sim_loaded sim_fresh) = w' ∧
   (∃ mime data,
       last (posted w') = Some (Result (req_outputName req) mime data
                                       (req_runId req) (req_phase req))) ∧
   ∀ n, n ∈ artifacts req → n ∉ ffmpeg_files (ffmpeg w')) ∧
  posted (self_onmessage req (sim_loaded sim_exec_fails))
  = [Progress "ffmpeg: aborted"; Error "Aborted()" (Some "r1") (Some "merge")].
Proof.
  intros req w'. split.
  - apply (proj1 (artifacts_deleted_on_success req (sim_loaded sim_fresh)
                    (or_introl eq_refl)) w').
    vm_compute. reflexivity.
  - refine (eq_trans (f_equal posted
              (proj2 (proj2 (artifacts_deleted_on_success req
                               (sim_loaded sim_exec_fails) (or_introl eq_refl)))
                 ["ffmpeg: aborted"] "Aborted()" _ eq_refl _)) _).
    + left. split; [reflexivity|].
      do 5 eexists. repeat (split; [reflexivity|]). reflexivity.
    + vm_compute. reflexivity.
Defined.

(** [exec] throws: the error is reported, and the segment and the list
    written for the request stay in the engine's file system. *)
Lemma artifacts_left_on_failure_counterexample :
  let req := concat_request "r1" one_segment in
  let w' := self_onmessage req (sim_loaded sim_exec_fails) in
  posted w' = [Progress "ffmpeg: aborted";
               Error "Aborted()" (Some "r1") (Some "merge")] ∧
  artifacts req = ["seg0.webm"; "list.txt"; "merged.webm"] ∧
  "seg0.webm" ∈ ffmpeg_files (ffmpeg w') ∧ "list.txt" ∈ ffmpeg_files (ffmpeg w').
Proof.
  intros req w'. split; [vm_compute; reflexivity|].
  split; [vm_compute; reflexivity|].
  split; apply elem_of_dom; vm_compute; eauto.
Qed.

(** The multi-threaded core does not load.  After the fallback the
    worker serves a [load] and then a [concat] request, and answers the
    latter with its [result]. *)
Lemma ensureLoaded_falls_back_witness :
  let w := {| loaded := false; listeners := 0; ffmpeg := sim_no_threads;
              posted := [] |} in
  let w' := {| loaded := true; listeners := 1; ffmpeg := sim_no_threads;
               posted := [Loaded] |} in
  ensureLoaded w = (Ok tt, w') ∧
  posted (self_onmessage (concat_request "r1" one_segment)
            (self_onmessage load_request w'))
  = [Loaded; Progress "ffmpeg: done";
     Result "merged.webm" "video/webm"
            (list_byte_of_string "file 'seg0.webm'") (Some "r1") (Some "merge")].
Proof.
  intros w w'.
  destruct (ensureLoaded_falls_back w
              ("blob:" +:+ coreBase +:+ "/ffmpeg-core.js")
              ("blob:" +:+ coreBase +:+ "/ffmpeg-core.wasm")
              sim_no_threads sim_no_threads sim_no_threads sim_no_threads [] [])
    as (Hload & _ & _ & Hserved).
  - reflexivity.
  - vm_compute. reflexivity.
  - vm_compute. reflexivity.
  - right.
    exists ("blob:" +:+ coreBase +:+ "/ffmpeg-core.worker.js"), sim_no_threads,
           "failed to import ffmpeg-core.js".
    split; vm_compute; reflexivity.
  - vm_compute. reflexivity.
  - split; [exact Hload|].
    refine (eq_trans (f_equal posted
              (Hserved [load_request] (concat_request "r1" one_segment)
                 ["ffmpeg: done"] (list_byte_of_string "file 'seg0.webm'")
                 sim_no_threads _)) _).
    + left. split; [reflexivity|].
      exists [], (sim_with_files {["seg0.webm" := [Byte.x1a; Byte.x45; Byte.xdf; Byte.xa3]]} sim_no_threads).
      do 11 eexists.
      repeat (split; [reflexivity|]). reflexivity.
    + vm_compute. reflexivity.
Defined.

Lemma unknown_request_reply_witness :
  let w' := self_onmessage probe_request sim_worker in
  ∃ l, Forall (λ m, is_terminal m = false) l ∧
       match ensureLoaded sim_worker with
       | (Throw message, w1) =>
           posted w1 = posted sim_worker ++ l ∧
           posted w' = posted w1 ++ [Error message (req_runId probe_request)
                                           (req_phase probe_request)]
       | (_, w1) => w' = w1 ∧ posted w' = posted sim_worker ++ l
       end.
Proof.
  intros w'.
  apply (proj2 (unknown_request_reply probe_request sim_worker
                  ltac:(discriminate) ltac:(discriminate) ltac:(discriminate))).
Defined.

(** The core cannot be fetched: the request of unknown type is answered
    with an [error], and the page rejects the promise that waits under the
    key of the request. *)
Lemma unknown_request_error_counterexample :
  let now := λ _ : nat, "2025-01-01T00:00:00.000Z" in
  let w := {| loaded := false; listeners := 0; ffmpeg := sim_offline;
              posted := [] |} in
  let s := {| app := snd (new_pending "r1:merge" initial_app); worker := w;
              sent := [] |} in
  req_type probe_request = "probe" ∧
  posted (self_onmessage probe_request w) =
    [Error "Failed to fetch" (Some "r1") (Some "merge")] ∧
  settlement_of 0 (app (postMessage now probe_request s)) =
    Some (Rejected "Failed to fetch").
Proof. vm_compute. repeat split; reflexivity. Qed.

(** ** Stepping through monadic code *)

Lemma bind_eq {S A B} (m : M S A) (k : A → M S B) s :
  (m ≫= k) s = match m s with
               | (Ok a, s1) => k a s1
               | (Throw e, s1) => (Throw e, s1)
               | (Hang, s1) => (Hang, s1)
               end.
Proof. reflexivity. Qed.

Lemma bind_ok_eq {S A B} (m : M S A) (k : A → M S B) s a s1 :
  m s = (Ok a, s1) → (m ≫= k) s = k a s1.
Proof. intros Hm. by rewrite bind_eq, Hm. Qed.

Lemma gets_bind {S A B} (f : S → A) (k : A → M S B) s :
  (gets f ≫= k) s = k (f s) s.
Proof. reflexivity. Qed.

(** [try { x = await m } catch (e) { h(e); return }] *)
Lemma try_stage_eq {S A} (m : M S A) (h : string → M S (option A)) s :
  catch (Some <$> m) h s = match m s with
                           | (Ok a, s1) => (Ok (Some a), s1)
                           | (Throw e, s1) => h e s1
                           | (Hang, s1) => (Hang, s1)
                           end.
Proof.
  unfold catch, fmap, M_fmap, bind, ret. by destruct (m s) as [[a|e|] s1].
Qed.


(** ** Rounding *)

Lemma round_half_up_le (x : Q) : (inject_Z (round_half_up x) <= x + (1 # 2))%Q.
Proof. apply Qfloor_le. Qed.

Lemma round_half_up_gt (x : Q) : (x - (1 # 2) < inject_Z (round_half_up x))%Q.
Proof.
  pose proof (Qlt_floor (x + (1 # 2))) as Hlt. fold (round_half_up x) in Hlt.
  rewrite inject_Z_plus in Hlt. change (inject_Z 1) with 1%Q in Hlt. lra.
Qed.

Lemma round_half_up_nonneg (x : Q) : (- (1 # 2) <= x)%Q → (0 ≤ round_half_up x)%Z.
Proof.
  intros Hx. change 0%Z with (Qfloor 0). apply Qfloor_resp_le. lra.
Qed.

(** Three durations rounded one by one exceed the rounded total by two
    at most, when they add up to the total within one millisecond. *)
Lemma round_half_up_sum (a b c t : Q) :
  (a + b + c < t + 1)%Q →
  (round_half_up a + round_half_up b + round_half_up c ≤ round_half_up t + 2)%Z.
Proof.
  intros Hsum.
  pose proof (round_half_up_le a). pose proof (round_half_up_le b).
  pose proof (round_half_up_le c). pose proof (round_half_up_gt t).
  apply Z.lt_succ_r. rewrite Zlt_Qlt. unfold Z.succ.
  rewrite !inject_Z_plus. change (inject_Z 1) with 1%Q.
  change (inject_Z 2) with 2%Q. lra.
Qed.

(** *** Code that touches the state of the component only *)

Section AppOnly.
Context {E : Type} `{Engine E} {X : Type} (f : Sys E → X).
Variable nowIso : nat → string.
Variable env : RunEnv.
Hypothesis f_app :
  ∀ a s, f {| app := a; worker := worker s; sent := sent s |} = f s.

(** [keeps f s s']: [f] has the same value in [s'] as in [s]. *)
Definition keeps (f : Sys E → X) : relation (Sys E) := λ s s', f s' = f s.

Global Instance keeps_preorder g : PreOrder (keeps g).
Proof. split; [by intros s|]. intros s1 s2 s3 H1 H2. unfold keeps in *. congruence. Qed.

Lemma keeps_liftA g : steps (keeps f) (liftA g).
Proof. intros s. apply f_app. Qed.

Lemma keeps_objectURL b : steps (keeps f) (objectURL b).
Proof. intros s. apply f_app. Qed.

Lemma keeps_recordOneSegment i : steps (keeps f) (recordOneSegment env i).
Proof.
  unfold recordOneSegment.
  apply steps_bind; [apply _|apply keeps_liftA|intros _].
  apply steps_bind; [apply _|by intros s|intros b].
  apply steps_bind; [apply _|apply keeps_liftA|intros _].
  apply steps_ret, _.
Qed.

(** The recording stage does not touch what lies outside the component:
    the worker, and the requests posted to it. *)
Lemma keeps_record_segments rid count todo :
  steps (keeps f) (record_segments nowIso env rid count todo).
Proof.
  induction todo as [|todo IH]; cbn [record_segments]; [apply steps_ret, _|].
  apply steps_bind; [apply _|apply keeps_liftA|intros _].
  apply steps_bind; [apply _|apply keeps_recordOneSegment|intros b].
  apply steps_bind; [apply _|apply keeps_objectURL|intros url].
  apply steps_bind; [apply _|apply keeps_liftA|intros _].
  apply steps_bind; [apply _|apply IH|intros rest].
  apply steps_ret, _.
Qed.

End AppOnly.

(** *** Code that leaves a part of the component's state alone *)

Section AppField.
Context {E : Type} `{Engine E} {X : Type} (g : App → X).
Variable nowIso : nat → string.
Variable env : RunEnv.
Hypothesis g_uiLog : ∀ line a, g (uiLog nowIso line a) = g a.
Hypothesis g_createObjectURL : ∀ b a, g (snd (createObjectURL b a)) = g a.
Hypothesis g_setIsRecording : ∀ b a, g (setIsRecording b a) = g a.

Lemma field_record_segments rid count todo :
  steps (keeps (λ s : Sys E, g (app s)))
        (record_segments nowIso env rid count todo).
Proof.
  assert (Hlog : ∀ line, steps (keeps (λ s : Sys E, g (app s))) (log nowIso line))
    by (intros line s; apply g_uiLog).
  assert (Hrec : ∀ b, steps (keeps (λ s : Sys E, g (app s)))
                        (liftA (setIsRecording b)))
    by (intros b s; apply g_setIsRecording).
  induction todo as [|todo IH]; cbn [record_segments]; [apply steps_ret, _|].
  apply steps_bind; [apply _|apply Hlog|intros _].
  apply steps_bind; [apply _| |intros b].
  { unfold recordOneSegment.
    apply steps_bind; [apply _|apply Hrec|intros _].
    apply steps_bind; [apply _|by intros s|intros b].
    apply steps_bind; [apply _|apply Hrec|intros _].
    apply steps_ret, _. }
  apply steps_bind; [apply _| |intros url].
  { intros s. exact (g_createObjectURL b (app s)). }
  apply steps_bind; [apply _|apply Hlog|intros _].
  apply steps_bind; [apply _|apply IH|intros rest].
  apply steps_ret, _.
Qed.

End AppField.

(** ** The automated run *)

Section RunFacts.
Context {E : Type} `{Engine E}.
Variable nowIso : nat → string.
Variable env : RunEnv.

(** The four durations of a run, as [runAutomated] computes them. *)
Definition tRecord : Z :=
  Math_round (performance_now env 2 - performance_now env 1)%float.
Definition tMerge : Z :=
  Math_round (performance_now env 4 - performance_now env 3)%float.
Definition tMp4 : Z :=
  Math_round (performance_now env 6 - performance_now env 5)%float.
Definition tTotal : Z :=
  Math_round (performance_now env 7 - performance_now env 0)%float.

(** [runAutomated] between its guards and its end, as a function of how
    the three stages end. *)
Definition run_outcome (s : Sys E) : outcome (option RunResult) * Sys E :=
  let runId := mkRunId env in
  match record_stage nowIso env runId (snd (begin_run nowIso runId s)) with
  | (Hang, s1) => (Hang, s1)
  | (Throw e, s1) => (Ok None, snd (on_record_failed nowIso runId e s1))
  | (Ok segs, s1) =>
      match merge_stage nowIso runId (map fst segs) (snd (after_record segs s1)) with
      | (Hang, s2) => (Hang, s2)
      | (Throw e, s2) => (Ok None, snd (on_merge_failed nowIso runId e s2))
      | (Ok merged, s2) =>
          match mp4_stage nowIso runId merged
                  (snd (after_merge nowIso runId merged tMerge s2)) with
          | (Hang, s3) => (Hang, s3)
          | (Throw e, s3) => (Ok None, snd (on_mp4_failed nowIso runId e s3))
          | (Ok mp4Out, s3) =>
              (Some <$> finish_run nowIso runId segs merged mp4Out
                          tRecord tMerge tMp4 tTotal)
                (snd (after_mp4 nowIso runId mp4Out tMp4 s3))
          end
      end
  end.

Lemma runAutomated_eq s :
  isBusy (app s) = false → workerLoaded (app s) = true →
  runAutomated nowIso env s = run_outcome s.
Proof.
  intros Hbusy Hloaded. unfold runAutomated, run_outcome.
  rewrite gets_bind, Hbusy. cbv beta iota zeta.
  rewrite gets_bind, Hloaded. cbn [negb]. cbv beta iota zeta.
  rewrite (bind_ok_eq _ _ _ _ _ (eq_refl : begin_run nowIso _ s = (Ok tt, _))).
  rewrite bind_eq, try_stage_eq.
  destruct (record_stage _ _ _ _) as [[segs|e|] s1]; [|reflexivity..].
  rewrite (bind_ok_eq _ _ _ _ _ (eq_refl : after_record segs s1 = (Ok tt, _))).
  rewrite bind_eq, try_stage_eq.
  destruct (merge_stage _ _ _ _) as [[merged|e|] s2]; [|reflexivity..].
  rewrite (bind_ok_eq _ _ _ _ _
             (eq_refl : after_merge nowIso _ merged _ s2 = (Ok tt, _))).
  rewrite bind_eq, try_stage_eq. fold tMerge.
  destruct (mp4_stage _ _ _ _) as [[mp4Out|e|] s3]; [|reflexivity..].
  rewrite (bind_ok_eq _ _ _ _ _
             (eq_refl : after_mp4 nowIso _ mp4Out _ s3 = (Ok tt, _))).
  reflexivity.
Qed.


(** *** What the stages leave alone *)

(** The records appended to the log file so far. *)
Definition file_records (a : App) : list RunResult :=
  from_option fh_records [] (fileHandleRef a).

(** A log file is selected and it can be written. *)
Definition can_append (a : App) : bool :=
  from_option (λ h, bool_decide (fh_failure h = None)) false (fileHandleRef a).

(** [run_frame P s s']: from [s] to [s'] the log file is untouched, and
    the page has posted requests that all satisfy [P]. *)
Definition run_frame (P : WorkerRequest → Prop) (s s' : Sys E) : Prop :=
  fileHandleRef (app s') = fileHandleRef (app s) ∧
  ∃ l, sent s' = sent s ++ l ∧ Forall P l.

Global Instance run_frame_preorder P : PreOrder (run_frame P).
Proof.
  split.
  - intros s. split; [done|]. exists []. by rewrite app_nil_r.
  - intros s1 s2 s3 (Hf1 & l1 & Hs1 & HP1) (Hf2 & l2 & Hs2 & HP2).
    split; [congruence|]. exists (l1 ++ l2).
    rewrite Hs2, Hs1, app_assoc. split; [done|]. by apply Forall_app.
Qed.

Lemma run_frame_same P (s s' : Sys E) :
  fileHandleRef (app s') = fileHandleRef (app s) → sent s' = sent s →
  run_frame P s s'.
Proof. intros Hf Hs. split; [done|]. exists []. by rewrite app_nil_r. Qed.

Lemma steps_liftA P (f : App → App) :
  (∀ a, fileHandleRef (f a) = fileHandleRef a) →
  steps (run_frame P) (liftA (E:=E) f).
Proof. intros Hf s. apply run_frame_same; [apply Hf|done]. Qed.

Lemma steps_log P line : steps (run_frame P) (log (E:=E) nowIso line).
Proof. by apply steps_liftA. Qed.

Lemma steps_register P key : steps (run_frame P) (register (E:=E) key).
Proof. intros s. by apply run_frame_same. Qed.

Lemma steps_objectURL P b : steps (run_frame P) (objectURL (E:=E) b).
Proof. intros s. by apply run_frame_same. Qed.

Lemma steps_await P p : steps (run_frame P) (await (E:=E) p).
Proof.
  intros s. unfold await.
  destruct (settlement_of p (app s)) as [[x|e]|]; reflexivity.
Qed.

Lemma w_onmessage_fileHandleRef msg a :
  fileHandleRef (w_onmessage nowIso msg a) = fileHandleRef a.
Proof.
  destruct msg as [| |outputName mimeType data r ph|message r ph]; cbn;
    try done.
  - destruct (pendingRef a !! key_of r ph); [done|]. cbn.
    destruct (String.eqb outputName "merged.webm"); [done|].
    by destruct (String.eqb outputName "reencoded.mp4").
  - by destruct (pendingRef a !! key_of r ph).
Qed.

Lemma foldl_w_onmessage_fileHandleRef msgs a :
  fileHandleRef (foldl (λ a msg, w_onmessage nowIso msg a) a msgs)
  = fileHandleRef a.
Proof.
  revert a. induction msgs as [|msg msgs IH]; intros a; [done|].
  cbn. by rewrite IH, w_onmessage_fileHandleRef.
Qed.

Lemma steps_postMessage (P : WorkerRequest → Prop) req :
  P req → steps (run_frame P) (modify (postMessage (E:=E) nowIso req)).
Proof.
  intros HP s. split.
  - apply foldl_w_onmessage_fileHandleRef.
  - exists [req]. split; [done|]. by repeat constructor.
Qed.

Lemma steps_workerConcat (P : WorkerRequest → Prop) rid blobs :
  P (concat_request rid blobs) →
  steps (run_frame P) (workerConcat (E:=E) nowIso rid blobs).
Proof.
  intros HP. unfold workerConcat.
  apply steps_bind; [apply _|apply steps_gets, _|intros wl].
  destruct (negb wl); [apply steps_throw, _|].
  apply steps_bind; [apply _|apply steps_register|intros p].
  apply steps_bind; [apply _|by apply steps_postMessage|intros _].
  apply steps_await.
Qed.

Lemma steps_workerReencodeMp4 (P : WorkerRequest → Prop) rid blob :
  P (reencode_request rid blob) →
  steps (run_frame P) (workerReencodeMp4 (E:=E) nowIso rid blob).
Proof.
  intros HP. unfold workerReencodeMp4.
  apply steps_bind; [apply _|apply steps_gets, _|intros wl].
  destruct (negb wl); [apply steps_throw, _|].
  apply steps_bind; [apply _|apply steps_register|intros p].
  apply steps_bind; [apply _|by apply steps_postMessage|intros _].
  apply steps_await.
Qed.

Lemma steps_recordOneSegment P i :
  steps (run_frame P) (recordOneSegment (E:=E) env i).
Proof.
  unfold recordOneSegment.
  apply steps_bind; [apply _|by apply steps_liftA|intros _].
  apply steps_bind; [apply _|intros s; reflexivity|intros b].
  apply steps_bind; [apply _|by apply steps_liftA|intros _].
  apply steps_ret, _.
Qed.

Lemma steps_record_segments P rid count todo :
  steps (run_frame P) (record_segments (E:=E) nowIso env rid count todo).
Proof.
  induction todo as [|todo IH]; cbn [record_segments]; [apply steps_ret, _|].
  apply steps_bind; [apply _|apply steps_log|intros _].
  apply steps_bind; [apply _|apply steps_recordOneSegment|intros b].
  apply steps_bind; [apply _|apply steps_objectURL|intros url].
  apply steps_bind; [apply _|apply steps_log|intros _].
  apply steps_bind; [apply _|apply IH|intros rest].
  apply steps_ret, _.
Qed.

Lemma steps_mp4_stage (P : WorkerRequest → Prop) rid merged :
  P (reencode_request rid (so_blob merged)) →
  steps (run_frame P) (mp4_stage (E:=E) nowIso rid merged).
Proof.
  intros HP. unfold mp4_stage.
  apply steps_bind; [apply _|apply steps_log|intros _].
  by apply steps_workerReencodeMp4.
Qed.

(** The statements of [runAutomated] outside the stages. *)
Lemma run_frame_begin_run P rid (s : Sys E) :
  run_frame P s (snd (begin_run nowIso rid s)).
Proof. by apply run_frame_same. Qed.

Lemma run_frame_after_record P segs (s : Sys E) :
  run_frame P s (snd (after_record segs s)).
Proof. by apply run_frame_same. Qed.

Lemma run_frame_after_merge P rid merged t (s : Sys E) :
  run_frame P s (snd (after_merge nowIso rid merged t s)).
Proof. by apply run_frame_same. Qed.

Lemma run_frame_after_mp4 P rid out t (s : Sys E) :
  run_frame P s (snd (after_mp4 nowIso rid out t s)).
Proof. by apply run_frame_same. Qed.

Lemma run_frame_on_record_failed P rid e (s : Sys E) :
  run_frame P s (snd (on_record_failed nowIso rid e s)).
Proof. by apply run_frame_same. Qed.

Lemma run_frame_on_merge_failed P rid e (s : Sys E) :
  run_frame P s (snd (on_merge_failed nowIso rid e s)).
Proof. by apply run_frame_same. Qed.

Lemma run_frame_on_mp4_failed P rid e (s : Sys E) :
  run_frame P s (snd (on_mp4_failed nowIso rid e s)).
Proof. by apply run_frame_same. Qed.

(** The end of a run: the record, and what has become of the log file. *)
Lemma finish_run_eq rid segs merged mp4Out tr tm t4 tt (s : Sys E) :
  let r := result_of (nowIso (timestamps (app s))) rid segs merged mp4Out
                     tr tm t4 tt in
  let s' := snd (finish_run nowIso rid segs merged mp4Out tr tm t4 tt s) in
  finish_run nowIso rid segs merged mp4Out tr tm t4 tt s = (Ok r, s') ∧
  isBusy (app s') = false ∧ sent s' = sent s ∧ worker s' = worker s ∧
  file_records (app s') =
    (if can_append (app s) then file_records (app s) ++ [r]
     else file_records (app s)).
Proof.
  destruct s as [a w snt]. destruct a. intros r s'.
  destruct fileHandleRef0 as [[[|] recs]|]; repeat split; reflexivity.
Qed.


(** *** The record of a run *)

(** The three stages of a run succeed, one after the other. *)
Definition stages_succeed (s : Sys E) : Prop :=
  ∃ segs s1 merged s2 mp4Out s3,
    record_stage nowIso env (mkRunId env) (snd (begin_run nowIso (mkRunId env) s))
      = (Ok segs, s1) ∧
    merge_stage nowIso (mkRunId env) (map fst segs) (snd (after_record segs s1))
      = (Ok merged, s2) ∧
    mp4_stage nowIso (mkRunId env) merged
      (snd (after_merge nowIso (mkRunId env) merged tMerge s2))
      = (Ok mp4Out, s3).

(** A run that yields a record has gone through the three stages, and
    the record holds what they produced. *)
Lemma run_outcome_Some s r s' :
  run_outcome s = (Ok (Some r), s') →
  ∃ segs s1 merged s2 mp4Out s3 stamp,
    record_stage nowIso env (mkRunId env) (snd (begin_run nowIso (mkRunId env) s))
      = (Ok segs, s1) ∧
    merge_stage nowIso (mkRunId env) (map fst segs) (snd (after_record segs s1))
      = (Ok merged, s2) ∧
    mp4_stage nowIso (mkRunId env) merged
      (snd (after_merge nowIso (mkRunId env) merged tMerge s2))
      = (Ok mp4Out, s3) ∧
    r = result_of stamp (mkRunId env) segs merged mp4Out
                  tRecord tMerge tMp4 tTotal.
Proof.
  unfold run_outcome. cbv zeta.
  destruct (record_stage _ _ _ _) as [[segs|e|] s1] eqn:Hrec; [|discriminate..].
  destruct (merge_stage _ _ _ _) as [[merged|e|] s2] eqn:Hmerge; [|discriminate..].
  destruct (mp4_stage _ _ _ _) as [[mp4Out|e|] s3] eqn:Hmp4; [|discriminate..].
  intros (r' & Hfin & [= ->])%fmap_Ok.
  destruct (finish_run_eq (mkRunId env) segs merged mp4Out tRecord tMerge tMp4
              tTotal (snd (after_mp4 nowIso (mkRunId env) mp4Out tMp4 s3)))
    as (Heq & _).
  rewrite Heq in Hfin. injection Hfin as <- _.
  by eexists segs, s1, merged, s2, mp4Out, s3, _.
Qed.

Lemma runAutomated_guards s r s' :
  runAutomated nowIso env s = (Ok (Some r), s') →
  isBusy (app s) = false ∧ workerLoaded (app s) = true.
Proof.
  unfold runAutomated. rewrite gets_bind.
  destruct (isBusy (app s)); [discriminate|]. cbv beta iota.
  rewrite gets_bind. destruct (workerLoaded (app s)); [done|discriminate].
Qed.

Lemma steps_record_stage P rid :
  steps (run_frame P) (record_stage (E:=E) nowIso env rid).
Proof. apply steps_record_segments. Qed.

Lemma steps_merge_stage (P : WorkerRequest → Prop) rid blobs :
  P (concat_request rid blobs) →
  steps (run_frame P) (merge_stage (E:=E) nowIso rid blobs).
Proof. apply steps_workerConcat. Qed.

(** A run either stops before its end, in a state the stages have framed,
    or reaches [finish_run] in such a state. *)
Lemma run_outcome_frame (P : WorkerRequest → Prop) s :
  (∀ blobs, P (concat_request (mkRunId env) blobs)) →
  (∀ blob, P (reencode_request (mkRunId env) blob)) →
  ∃ s3, run_frame P s s3 ∧
    ((∃ o, run_outcome s = (o, s3) ∧ ∀ r, o ≠ Ok (Some r)) ∨
     (∃ segs merged mp4Out,
        run_outcome s =
        (Some <$> finish_run nowIso (mkRunId env) segs merged mp4Out
                    tRecord tMerge tMp4 tTotal) s3)).
Proof.
  intros Hconcat Hreencode. unfold run_outcome. cbv zeta.
  pose proof (run_frame_begin_run P (mkRunId env) s) as F0.
  pose proof (steps_record_stage P (mkRunId env)
                (snd (begin_run nowIso (mkRunId env) s))) as F1.
  destruct (record_stage _ _ _ _) as [[segs|e|] s1]; cbn [snd] in F1.
  2:{ eexists. split; [|left; by eexists].
      etrans; [exact F0|]. etrans; [exact F1|].
      apply run_frame_on_record_failed. }
  2:{ eexists. split; [|left; by eexists]. by etrans. }
  pose proof (run_frame_after_record P segs s1) as F2.
  pose proof (steps_merge_stage P (mkRunId env) (map fst segs) (Hconcat _)
                (snd (after_record segs s1))) as F3.
  destruct (merge_stage _ _ _ _) as [[merged|e|] s2]; cbn [snd] in F3.
  2:{ eexists. split; [|left; by eexists].
      etrans; [exact F0|]. etrans; [exact F1|]. etrans; [exact F2|].
      etrans; [exact F3|]. apply run_frame_on_merge_failed. }
  2:{ eexists. split; [|left; by eexists].
      etrans; [exact F0|]. etrans; [exact F1|]. by etrans. }
  pose proof (run_frame_after_merge P (mkRunId env) merged tMerge s2) as F4.
  pose proof (steps_mp4_stage P (mkRunId env) merged (Hreencode _)
                (snd (after_merge nowIso (mkRunId env) merged tMerge s2))) as F5.
  assert (F : run_frame P s (snd (after_merge nowIso (mkRunId env) merged tMerge s2))).
  { etrans; [exact F0|]. etrans; [exact F1|]. etrans; [exact F2|]. by etrans. }
  destruct (mp4_stage _ _ _ _) as [[mp4Out|e|] s3]; cbn [snd] in F5.
  2:{ eexists. split; [|left; by eexists].
      etrans; [exact F|]. etrans; [exact F5|]. apply run_frame_on_mp4_failed. }
  2:{ eexists. split; [|left; by eexists]. by etrans. }
  eexists. split; [|right; by eexists _, _, _].
  etrans; [exact F|]. etrans; [exact F5|]. apply run_frame_after_mp4.
Qed.

(** The log file through a run: a record is appended at the end of a
    run that completes, when a writable file is selected, and nothing is
    written otherwise. *)
Lemma run_outcome_file_records s o s' :
  run_outcome s = (o, s') →
  file_records (app s') =
    match o with
    | Ok (Some r) =>
        if can_append (app s) then file_records (app s) ++ [r]
        else file_records (app s)
    | _ => file_records (app s)
    end.
Proof.
  intros Hrun.
  destruct (run_outcome_frame (λ _, True) s (λ _, I) (λ _, I))
    as (s3 & [Hfile _] & [(o' & Ho & Hnot)|(segs & merged & mp4Out & Ho)]);
    rewrite Ho in Hrun.
  - injection Hrun as <- <-. unfold file_records. rewrite Hfile.
    destruct o' as [[r|]| |]; [by destruct (Hnot r)|done..].
  - destruct (finish_run_eq (mkRunId env) segs merged mp4Out tRecord tMerge
                tMp4 tTotal s3) as (Heq & _ & _ & _ & Hrec).
    unfold fmap, M_fmap, bind, ret in Hrun. rewrite Heq in Hrun.
    injection Hrun as <- <-. rewrite Hrec.
    unfold can_append, file_records. by rewrite Hfile.
Qed.

(** *** A failed stage ends the run *)

Lemma w_onmessage_workerLoaded msg a :
  workerLoaded a = true → workerLoaded (w_onmessage nowIso msg a) = true.
Proof.
  intros Hl.
  destruct msg as [| |outputName mimeType data r ph|message r ph]; cbn;
    try done.
  - destruct (pendingRef a !! key_of r ph); [done|]. cbn.
    destruct (String.eqb outputName "merged.webm"); [done|].
    by destruct (String.eqb outputName "reencoded.mp4").
  - by destruct (pendingRef a !! key_of r ph).
Qed.

Lemma foldl_w_onmessage_workerLoaded msgs a :
  workerLoaded a = true →
  workerLoaded (foldl (λ a msg, w_onmessage nowIso msg a) a msgs) = true.
Proof.
  revert a. induction msgs as [|msg msgs IH]; intros a Hl; [done|].
  cbn. by apply IH, w_onmessage_workerLoaded.
Qed.

(** A stage function called on a loaded page posts its request, and that
    request only; the page is still loaded afterwards. *)
Lemma workerConcat_sent rid blobs (s : Sys E) :
  workerLoaded (app s) = true →
  sent (snd (workerConcat nowIso rid blobs s)) = sent s ++ [concat_request rid blobs] ∧
  workerLoaded (app (snd (workerConcat nowIso rid blobs s))) = true.
Proof.
  intros Hl. unfold workerConcat. rewrite gets_bind, Hl. cbn [negb].
  unfold mbind, M_bind, bind, register, modify, await, postMessage. cbn.
  destruct (settlement_of _ _) as [[x|e]|]; cbn;
    (split; [done|by apply foldl_w_onmessage_workerLoaded]).
Qed.

Lemma workerReencodeMp4_sent rid blob (s : Sys E) :
  workerLoaded (app s) = true →
  sent (snd (workerReencodeMp4 nowIso rid blob s))
    = sent s ++ [reencode_request rid blob] ∧
  workerLoaded (app (snd (workerReencodeMp4 nowIso rid blob s))) = true.
Proof.
  intros Hl. unfold workerReencodeMp4. rewrite gets_bind, Hl. cbn [negb].
  unfold mbind, M_bind, bind, register, modify, await, postMessage. cbn.
  destruct (settlement_of _ _) as [[x|e]|]; cbn;
    (split; [done|by apply foldl_w_onmessage_workerLoaded]).
Qed.

(** The recording stage posts nothing, leaves the worker alone, and
    leaves the page loaded. *)
Lemma record_stage_frame rid (s : Sys E) :
  let s1 := snd (record_stage nowIso env rid (snd (begin_run nowIso rid s))) in
  sent s1 = sent s ∧ worker s1 = worker s ∧
  workerLoaded (app s1) = workerLoaded (app s).
Proof.
  intros s1.
  pose proof (keeps_record_segments (λ s, (sent s, worker s)) nowIso env
                (λ _ _, eq_refl) rid Settings.segmentCount
                Settings.segmentCount (snd (begin_run nowIso rid s))) as Hkeep.
  pose proof (field_record_segments workerLoaded nowIso env
                (λ _ _, eq_refl) (λ _ _, eq_refl) (λ _ _, eq_refl)
                rid Settings.segmentCount Settings.segmentCount
                (snd (begin_run nowIso rid s))) as Hfield.
  change (record_segments nowIso env rid Settings.segmentCount
            Settings.segmentCount (snd (begin_run nowIso rid s))).2
    with s1 in Hkeep, Hfield.
  unfold keeps in Hkeep, Hfield. injection Hkeep as Hs Hw.
  by rewrite Hs, Hw, Hfield.
Qed.

(** A stage that throws ends the run at once: [runAutomated] returns
    without a record; the requests posted are those of the stages before
    the failure and of the failed stage, and after the failure the worker
    is not touched. *)
Definition aborts_at_failure (s : Sys E) : Prop :=
  let rid := mkRunId env in
  (∀ e s1,
      record_stage nowIso env rid (snd (begin_run nowIso rid s)) = (Throw e, s1) →
      ∃ s', runAutomated nowIso env s = (Ok None, s') ∧
            sent s' = sent s ∧ worker s' = worker s) ∧
  (∀ segs s1 e s2,
      record_stage nowIso env rid (snd (begin_run nowIso rid s)) = (Ok segs, s1) →
      merge_stage nowIso rid (map fst segs) (snd (after_record segs s1))
        = (Throw e, s2) →
      ∃ s', runAutomated nowIso env s = (Ok None, s') ∧
            sent s' = sent s ++ [concat_request rid (map fst segs)] ∧
            worker s' = worker s2) ∧
  (∀ segs s1 merged s2 e s3,
      record_stage nowIso env rid (snd (begin_run nowIso rid s)) = (Ok segs, s1) →
      merge_stage nowIso rid (map fst segs) (snd (after_record segs s1))
        = (Ok merged, s2) →
      mp4_stage nowIso rid merged (snd (after_merge nowIso rid merged tMerge s2))
        = (Throw e, s3) →
      ∃ s', runAutomated nowIso env s = (Ok None, s') ∧
            sent s' = sent s ++ [concat_request rid (map fst segs);
                                 reencode_request rid (so_blob merged)] ∧
            worker s' = worker s3).

Lemma run_aborts_at_failure s :
  isBusy (app s) = false → workerLoaded (app s) = true → aborts_at_failure s.
Proof.
  intros Hbusy Hloaded. unfold aborts_at_failure. cbv zeta.
  rewrite (runAutomated_eq s Hbusy Hloaded). unfold run_outcome. cbv zeta.
  destruct (record_stage_frame (mkRunId env) s) as (Hs1 & Hw1 & Hl1).
  cbv zeta in Hs1, Hw1, Hl1. rewrite Hloaded in Hl1.
  split; [|split].
  - intros e s1 Hrec. rewrite Hrec in *. cbn [snd] in *.
    eexists. split; [reflexivity|]. by split.
  - intros segs s1 e s2 Hrec Hmerge. rewrite Hrec in *. cbn [snd] in *.
    destruct (workerConcat_sent (mkRunId env) (map fst segs)
                (snd (after_record segs s1)) Hl1) as [Hs2 _].
    fold (merge_stage nowIso (mkRunId env) (map fst segs)) in Hs2.
    rewrite Hmerge in *. cbn [snd] in Hs2.
    eexists. split; [reflexivity|]. split; [|done].
    change (sent (snd (on_merge_failed nowIso (mkRunId env) e s2))) with (sent s2).
    rewrite Hs2.
    change (sent (snd (after_record segs s1))) with (sent s1).
    by rewrite Hs1.
  - intros segs s1 merged s2 e s3 Hrec Hmerge Hmp4. rewrite Hrec in *.
    cbn [snd] in *.
    destruct (workerConcat_sent (mkRunId env) (map fst segs)
                (snd (after_record segs s1)) Hl1) as [Hs2 Hl2].
    fold (merge_stage nowIso (mkRunId env) (map fst segs)) in Hs2, Hl2.
    rewrite Hmerge in *. cbn [snd] in Hs2, Hl2.
    destruct (workerReencodeMp4_sent (mkRunId env) (so_blob merged)
                (snd (log nowIso ("[RUN " +:+ mkRunId env
                                  +:+ "] Re-encoding MP4 (H.264/libx264)...")
                        (snd (after_merge nowIso (mkRunId env) merged tMerge s2))))
                Hl2) as [Hs3 _].
    change (workerReencodeMp4 nowIso (mkRunId env) (so_blob merged) _)
      with (mp4_stage nowIso (mkRunId env) merged
              (snd (after_merge nowIso (mkRunId env) merged tMerge s2))) in Hs3.
    rewrite Hmp4 in *. cbn [snd] in Hs3.
    eexists. split; [reflexivity|]. split; [|done].
    change (sent (snd (on_mp4_failed nowIso (mkRunId env) e s3))) with (sent s3).
    rewrite Hs3.
    change (sent (snd (log nowIso _ (snd (after_merge nowIso (mkRunId env)
                                            merged tMerge s2)))))
      with (sent s2).
    rewrite Hs2.
    change (sent (snd (after_record segs s1))) with (sent s1).
    rewrite Hs1. by rewrite <- app_assoc.
Qed.

(** C5.  A run started when the page is idle and the worker loaded
    yields a result record if and only if the recording, the merge and
    the MP4 encoding all succeed, each in the state the previous one left.
    The record is appended to the log file at the end of such a run, when
    a file is selected and the append succeeds; a run that ends
    otherwise, or never ends, appends nothing to the file.  A stage that
    throws ends the run at once: nothing is posted to the worker after
    the failure, so a failed recording posts nothing and a failed merge
    is not followed by the MP4 encoding. *)
Theorem result_record_iff_stages_succeed s :
  isBusy (app s) = false → workerLoaded (app s) = true →
  ((∃ r s', runAutomated nowIso env s = (Ok (Some r), s')) ↔ stages_succeed s) ∧
  (∀ o s', runAutomated nowIso env s = (o, s') →
    file_records (app s') =
      match o with
      | Ok (Some r) =>
          if can_append (app s) then file_records (app s) ++ [r]
          else file_records (app s)
      | _ => file_records (app s)
      end) ∧
  aborts_at_failure s.
Proof.
  intros Hbusy Hloaded.
  split; [|split; [|by apply run_aborts_at_failure]];
    rewrite (runAutomated_eq s Hbusy Hloaded); [|apply run_outcome_file_records].
  split.
  - intros (r & s' & Hrun).
    destruct (run_outcome_Some s r s' Hrun)
      as (segs & s1 & merged & s2 & mp4Out & s3 & stamp & H1 & H2 & H3 & _).
    by exists segs, s1, merged, s2, mp4Out, s3.
  - intros (segs & s1 & merged & s2 & mp4Out & s3 & H1 & H2 & H3).
    unfold run_outcome. cbv zeta. rewrite H1, H2, H3.
    destruct (finish_run_eq (mkRunId env) segs merged mp4Out tRecord tMerge tMp4
                tTotal (snd (after_mp4 nowIso (mkRunId env) mp4Out tMp4 s3)))
      as (Heq & _).
    unfold fmap, M_fmap, bind, ret. rewrite Heq. by eexists _, _.
Qed.

(** The error of the binary64 subtraction of reading [i] from reading
    [j]. *)
Definition difference_error (i j : nat) : Q :=
  Qabs (float_value (performance_now env j - performance_now env i)%float
        - (float_value (performance_now env j)
           - float_value (performance_now env i))).

(** C6.  The four durations of a result record are the binary64
    differences of the clock readings, each rounded on its own.  When the
    readings are finite, the clock does not go back and the four
    subtractions are exact within a quarter of a millisecond, none of the
    durations is negative, and the three stage durations together exceed
    the total by two milliseconds at most. *)
Theorem timings_rounded s r s' :
  runAutomated nowIso env s = (Ok (Some r), s') →
  (∀ i, i ≤ 7 → is_finite (performance_now env i) = true) →
  (∀ i, i < 7 → (float_value (performance_now env i)
                 <= float_value (performance_now env (S i)))%Q) →
  (difference_error 1 2 < 1 # 4)%Q → (difference_error 3 4 < 1 # 4)%Q →
  (difference_error 5 6 < 1 # 4)%Q → (difference_error 0 7 < 1 # 4)%Q →
  (tRecordMs r = tRecord ∧ tMergeMs r = tMerge ∧
   tMp4Ms r = tMp4 ∧ tTotalMs r = tTotal) ∧
  (0 ≤ tRecordMs r ∧ 0 ≤ tMergeMs r ∧ 0 ≤ tMp4Ms r ∧ 0 ≤ tTotalMs r)%Z ∧
  (tRecordMs r + tMergeMs r + tMp4Ms r ≤ tTotalMs r + 2)%Z.
Proof.
  intros Hrun _ Hclock H12 H34 H56 H07.
  destruct (runAutomated_guards s r s' Hrun) as [Hbusy Hloaded].
  rewrite (runAutomated_eq s Hbusy Hloaded) in Hrun.
  destruct (run_outcome_Some s r s' Hrun)
    as (segs & s1 & merged & s2 & mp4Out & s3 & stamp & _ & _ & _ & ->).
  cbn [tRecordMs tMergeMs tMp4Ms tTotalMs result_of].
  pose proof (Hclock 0 ltac:(lia)). pose proof (Hclock 1 ltac:(lia)).
  pose proof (Hclock 2 ltac:(lia)). pose proof (Hclock 3 ltac:(lia)).
  pose proof (Hclock 4 ltac:(lia)). pose proof (Hclock 5 ltac:(lia)).
  pose proof (Hclock 6 ltac:(lia)).
  apply Qabs_Qlt_condition in H12, H34, H56, H07.
  split; [done|]. unfold tRecord, tMerge, tMp4, tTotal, Math_round. split.
  - repeat split; apply round_half_up_nonneg; lra.
  - apply round_half_up_sum. lra.
Qed.

(** *** The requests of a run *)

(** A request of the run [env] describes: a [concat] in phase [merge] or
    a [reencode] in phase [mp4], under the identifier of the run. *)
Definition stage_request (req : WorkerRequest) : Prop :=
  req_runId req = Some (mkRunId env) ∧
  ((req_type req = "concat" ∧ req_phase req = Some "merge" ∧
    key_of (req_runId req) (req_phase req) = mkRunId env +:+ ":merge") ∨
   (req_type req = "reencode" ∧ req_phase req = Some "mp4" ∧
    key_of (req_runId req) (req_phase req) = mkRunId env +:+ ":mp4")).

(** C8.  Every request [runAutomated] posts to the worker carries the
    identifier of the run and one of two phases: [merge], on the [concat]
    request, and [mp4], on the [reencode] request.  The keys the answers
    are awaited under are the run identifier followed by [:merge] and by
    [:mp4]. *)
Theorem run_request_phases s :
  ∃ l, sent (snd (runAutomated nowIso env s)) = sent s ++ l ∧
       Forall stage_request l.
Proof.
  destruct (isBusy (app s)) eqn:Hbusy.
  { exists []. unfold runAutomated. rewrite gets_bind, Hbusy.
    split; [by rewrite app_nil_r|done]. }
  destruct (workerLoaded (app s)) eqn:Hloaded.
  2:{ exists []. unfold runAutomated. rewrite gets_bind, Hbusy. cbv beta iota.
      rewrite gets_bind, Hloaded. split; [by rewrite app_nil_r|done]. }
  rewrite (runAutomated_eq s Hbusy Hloaded).
  destruct (run_outcome_frame stage_request s)
    as (s3 & (_ & l & Hsent & Hl) & [(o & -> & _)|(segs & merged & mp4Out & ->)]).
  - intros blobs. split; [done|]. left. done.
  - intros blob. split; [done|]. right. done.
  - by exists l.
  - exists l. split; [|done].
    destruct (finish_run_eq (mkRunId env) segs merged mp4Out tRecord tMerge
                tMp4 tTotal s3) as (Heq & _ & Hs & _).
    unfold fmap, M_fmap, bind, ret. rewrite Heq. cbn [snd]. by rewrite Hs.
Qed.

End RunFacts.

(** ** The arguments of [exec] *)

(** The profile as the specification lists it: timestamps generated,
    constant frame rate, 30 frames a second, the [fps=30] filter, libx264
    at CRF 28, yuv420p, fast start, no audio. *)
Definition claimed_profile : list string :=
  ["-fflags"; "+genpts"; "-fps_mode"; "cfr"; "-r"; "30"; "-vf"; "fps=30";
   "-c:v"; "libx264"; "-crf"; "28"; "-pix_fmt"; "yuv420p";
   "-movflags"; "+faststart"; "-an"].

Section ExecCalls.
Context {E : Type} `{Engine E}.
Variable nowIso : nat → string.

(** [execs P w w']: from [w] to [w'] the worker has called [exec] with
    argument lists that all satisfy [P]. *)
Definition execs (P : list string → Prop) (w w' : Worker (Traced E)) : Prop :=
  ∃ l, exec_calls (ffmpeg w') = exec_calls (ffmpeg w) ++ l ∧ Forall P l.

Global Instance execs_preorder P : PreOrder (execs P).
Proof.
  split.
  - intros w. exists []. by rewrite app_nil_r.
  - intros w1 w2 w3 (l1 & H1 & HP1) (l2 & H2 & HP2). exists (l1 ++ l2).
    rewrite H2, H1, app_assoc. split; [done|]. by apply Forall_app.
Qed.

Lemma execs_same P (w w' : Worker (Traced E)) :
  exec_calls (ffmpeg w') = exec_calls (ffmpeg w) → execs P w w'.
Proof. intros Heq. exists []. by rewrite app_nil_r. Qed.

Lemma steps_call_traced P {A} (op : E → outcome A * list string * E) :
  steps (execs P) (call (λ t, traced (exec_calls t) (op (inner t)))).
Proof.
  intros w. apply execs_same. unfold call, traced.
  by destruct (op (inner (ffmpeg w))) as [[o lines] e].
Qed.

Lemma steps_call_exec (P : list string → Prop) args :
  P args → steps (execs P) (call (ffmpeg_exec (E:=Traced E) args)).
Proof.
  intros HP w. exists [args]. unfold call. cbn. unfold traced.
  destruct (ffmpeg_exec args (inner (ffmpeg w))) as [[o lines] e]. cbn.
  split; [done|]. by repeat constructor.
Qed.

Lemma steps_fetch_traced P url mime :
  steps (execs P) (fetch (E:=Traced E) url mime).
Proof.
  intros w. apply execs_same. unfold fetch. cbn.
  by destruct (toBlobURL url mime (inner (ffmpeg w))) as [o e].
Qed.

Lemma steps_post_traced P msg : steps (execs P) (post (E:=Traced E) msg).
Proof. intros w. by apply execs_same. Qed.

Lemma steps_ensureLoaded_traced P : steps (execs P) (ensureLoaded (E:=Traced E)).
Proof.
  unfold ensureLoaded.
  apply steps_bind; [apply _|apply steps_gets, _|]. intros [|].
  { apply steps_ret, _. }
  repeat first
    [ apply steps_bind; [apply _| |intros ?]
    | apply steps_catch; [apply _| |intros ?]
    | apply steps_fetch_traced | apply steps_post_traced
    | apply (steps_call_traced P (ffmpeg_load _))
    | (intros w; by apply execs_same) ].
Qed.

(** The [reencode] branch calls [exec] with the input after [-i], the
    arguments of the request, and the output. *)
Lemma steps_reencode_branch_traced (P : list string → Prop) req :
  P (["-i"; req_inputName req] ++ req_args req ++ [req_outputName req]) →
  steps (execs P) (reencode_branch (E:=Traced E) req).
Proof.
  intros HP. unfold reencode_branch.
  repeat first
    [ apply steps_bind; [apply _| |intros ?]
    | apply steps_post_traced
    | by apply steps_call_exec
    | apply (steps_call_traced P (ffmpeg_writeFile _ _))
    | apply (steps_call_traced P (ffmpeg_readFile _))
    | apply (steps_call_traced P (ffmpeg_deleteFile _)) ].
Qed.

Lemma self_onmessage_reencode_execs (P : list string → Prop) req w :
  req_type req = "reencode" →
  P (["-i"; req_inputName req] ++ req_args req ++ [req_outputName req]) →
  execs P w (self_onmessage req w).
Proof.
  intros Hty HP. unfold self_onmessage.
  apply (steps_catch (execs P)); [|intros e; apply steps_post_traced].
  unfold onmessage_body. rewrite Hty. cbn [String.eqb Ascii.eqb Bool.eqb].
  cbn.
  apply steps_bind; [apply _|apply steps_ensureLoaded_traced|intros _].
  by apply steps_reencode_branch_traced.
Qed.

(** C7.  The arguments of the [reencode] request [workerReencodeMp4]
    posts are the nineteen strings of [mp4Args]: the profile the
    specification lists, and [-preset veryfast] between the codec and the
    quality.  Whenever the worker calls [exec] for the request, the list
    it passes is [-i merged.webm], these arguments, and [reencoded.mp4]. *)
Theorem transcode_arguments (s : Sys (Traced E)) rid blob :
  let s' := snd (workerReencodeMp4 nowIso rid blob s) in
  mp4Args = take 10 claimed_profile ++ ["-preset"; "veryfast"]
            ++ drop 10 claimed_profile ∧
  (∃ reqs, sent s' = sent s ++ reqs ∧
           Forall (λ req, req_type req = "reencode" ∧ req_args req = mp4Args) reqs) ∧
  (∃ calls,
      exec_calls (ffmpeg (worker s')) = exec_calls (ffmpeg (worker s)) ++ calls ∧
      Forall (λ args, args = ["-i"; "merged.webm"] ++ mp4Args ++ ["reencoded.mp4"])
             calls).
Proof.
  intros s'. split; [reflexivity|]. split.
  - destruct (steps_workerReencodeMp4 nowIso
                (λ req, req_type req = "reencode" ∧ req_args req = mp4Args)
                rid blob (conj eq_refl eq_refl) s) as [_ Hsent].
    exact Hsent.
  - unfold s', workerReencodeMp4. rewrite gets_bind.
    destruct (workerLoaded (app s)); cbn [negb].
    + destruct (self_onmessage_reencode_execs
                  (λ args, args = ["-i"; "merged.webm"] ++ mp4Args ++ ["reencoded.mp4"])
                  (reencode_request rid blob) (worker s) eq_refl eq_refl)
        as (calls & Hcalls & HP).
      exists calls. split; [|exact HP]. rewrite <- Hcalls.
      unfold mbind, M_bind, bind, register, modify, await. cbn.
      by destruct (settlement_of _ _) as [[x|e]|].
    + exists []. by rewrite app_nil_r.
Qed.

End ExecCalls.

(** ** The run on the simulated engine *)

(** A run that records, merges and encodes on the simulated engine; and a
    run on an engine whose [exec] throws: the merge fails, the [concat]
    request is the last one posted, and no [reencode] follows. *)
Lemma result_record_iff_stages_succeed_witness :
  let env := sim_env clock_steady in
  (((∃ r s', runAutomated sim_now env sim_page = (Ok (Some r), s'))
    ↔ stages_succeed sim_now env sim_page) ∧
   (∀ o s', runAutomated sim_now env sim_page = (o, s') →
     file_records (app s') =
       match o with
       | Ok (Some r) =>
           if can_append (app sim_page) then file_records (app sim_page) ++ [r]
           else file_records (app sim_page)
       | _ => file_records (app sim_page)
       end) ∧
   aborts_at_failure sim_now env sim_page) ∧
  (∃ s', runAutomated sim_now env (mount sim_now sim_exec_fails) = (Ok None, s') ∧
         map req_type (sent s') = ["load"; "concat"]).
Proof.
  intros env. split.
  - apply (result_record_iff_stages_succeed sim_now env sim_page);
      vm_compute; reflexivity.
  - destruct (result_record_iff_stages_succeed sim_now env
                (mount sim_now sim_exec_fails)) as (_ & _ & Habort);
      [vm_compute; reflexivity..|].
    destruct Habort as (_ & Hmerge & _).
    edestruct Hmerge as (s' & Hrun & Hsent & _);
      [vm_compute; reflexivity..|].
    exists s'. split; [exact Hrun|]. rewrite Hsent. vm_compute. reflexivity.
Defined.

Lemma timings_rounded_witness :
  let env := sim_env clock_steady in
  (tRecordMs sim_record = tRecord env ∧ tMergeMs sim_record = tMerge env ∧
   tMp4Ms sim_record = tMp4 env ∧ tTotalMs sim_record = tTotal env) ∧
  (0 ≤ tRecordMs sim_record ∧ 0 ≤ tMergeMs sim_record ∧
   0 ≤ tMp4Ms sim_record ∧ 0 ≤ tTotalMs sim_record)%Z ∧
  (tRecordMs sim_record + tMergeMs sim_record + tMp4Ms sim_record
   ≤ tTotalMs sim_record + 2)%Z.
Proof.
  intros env.
  apply (timings_rounded sim_now env sim_page sim_record
           (snd (runAutomated sim_now env sim_page))).
  - vm_compute. reflexivity.
  - intros i Hi. do 8 (destruct i as [|i]; [vm_compute; reflexivity|]). lia.
  - intros i Hi. do 7 (destruct i as [|i]; [vm_compute; discriminate|]). lia.
  - vm_compute. reflexivity.
  - vm_compute. reflexivity.
  - vm_compute. reflexivity.
  - vm_compute. reflexivity.
Defined.

(** On the readings of [clock_inexact], which never go back, the three
    stage durations add up to two milliseconds more than the total; a
    stage that takes less than half a millisecond is recorded as zero. *)
Lemma timings_counterexample :
  (∃ r, record_of (runAutomated sim_now (sim_env clock_inexact) sim_page) = Some r ∧
        (tRecordMs r = 1808 ∧ tMergeMs r = 2961 ∧ tMp4Ms r = 27995 ∧
         tTotalMs r = 32762)%Z) ∧
  (∃ r, record_of (runAutomated sim_now (sim_env clock_fast_merge) sim_page) = Some r ∧
        tMergeMs r = 0%Z).
Proof.
  split; eexists; (split; [vm_compute; reflexivity|]); vm_compute;
    repeat split; reflexivity.
Qed.

(** The requests of a whole session: [load] without a phase, then the
    [concat] in phase [merge] and the [reencode] in phase [mp4]. *)
Lemma run_request_phases_counterexample :
  let s' := snd (runAutomated sim_now (sim_env clock_steady) sim_page) in
  map req_type (sent s') = ["load"; "concat"; "reencode"] ∧
  map req_phase (sent s') = [None; Some "merge"; Some "mp4"] ∧
  Some "mp4" ≠ Some "transcode".
Proof. split; [|split]; [vm_compute; reflexivity..|discriminate]. Qed.

(** One [exec] call for the [reencode] request, with twenty-two
    arguments; the list of the specification would have twenty. *)
Lemma transcode_arguments_counterexample :
  let s : Sys (Traced SimEngine) :=
    mount sim_now {| inner := sim_fresh; exec_calls := [] |} in
  let blob := {| blob_data := [Byte.x1a; Byte.x45]; blob_type := "video/webm" |} in
  let s' := snd (workerReencodeMp4 sim_now "r1" blob s) in
  exec_calls (ffmpeg (worker s')) =
    [["-i"; "merged.webm"; "-fflags"; "+genpts"; "-fps_mode"; "cfr"; "-r"; "30";
      "-vf"; "fps=30"; "-c:v"; "libx264"; "-preset"; "veryfast"; "-crf"; "28";
      "-pix_fmt"; "yuv420p"; "-movflags"; "+faststart"; "-an"; "reencoded.mp4"]] ∧
  ["-i"; "merged.webm"] ++ claimed_profile ++ ["reencoded.mp4"] =
    ["-i"; "merged.webm"; "-fflags"; "+genpts"; "-fps_mode"; "cfr"; "-r"; "30";
     "-vf"; "fps=30"; "-c:v"; "libx264"; "-crf"; "28";
     "-pix_fmt"; "yuv420p"; "-movflags"; "+faststart"; "-an"; "reencoded.mp4"].
Proof. split; vm_compute; reflexivity. Qed.

(** ** Further properties of the page *)

Section PageExtras.
Context {E : Type} `{Engine E}.
Variable nowIso : nat → string.
Variable env : RunEnv.

(** X1.  While the page has not seen [loaded], [workerConcat] and
    [workerReencodeMp4] throw at once: no promise is registered, nothing
    is posted to the worker, and the state is as it was. *)
Theorem stage_refused_when_not_loaded (s : Sys E) rid blobs blob :
  workerLoaded (app s) = false →
  workerConcat nowIso rid blobs s = (Throw "FFmpeg worker not loaded.", s) ∧
  workerReencodeMp4 nowIso rid blob s = (Throw "FFmpeg worker not loaded.", s).
Proof.
  intros Hl. unfold workerConcat, workerReencodeMp4.
  rewrite !gets_bind, Hl. done.
Qed.

Lemma runAutomated_cases (s : Sys E) :
  runAutomated nowIso env s =
  if isBusy (app s) then (Ok None, s)
  else if workerLoaded (app s) then run_outcome nowIso env s
  else (Ok None,
        {| app := uiLog nowIso "[ERROR] FFmpeg worker is not loaded yet." (app s);
           worker := worker s; sent := sent s |}).
Proof.
  destruct (isBusy (app s)) eqn:Hbusy.
  { unfold runAutomated. by rewrite gets_bind, Hbusy. }
  destruct (workerLoaded (app s)) eqn:Hloaded.
  { by apply runAutomated_eq. }
  unfold runAutomated. rewrite gets_bind, Hbusy. cbv beta iota.
  by rewrite gets_bind, Hloaded.
Qed.

(** X2.  [runAutomated] on a busy page does nothing at all; on an idle
    page that has not seen [loaded] it writes one line to the log pane
    and returns, without becoming busy and without posting anything. *)
Theorem runAutomated_refused (s : Sys E) :
  runAutomated nowIso env s =
  if isBusy (app s) then (Ok None, s)
  else if workerLoaded (app s) then run_outcome nowIso env s
  else (Ok None,
        {| app := uiLog nowIso "[ERROR] FFmpeg worker is not loaded yet." (app s);
           worker := worker s; sent := sent s |}).
Proof. exact (runAutomated_cases s). Qed.

(** X3.  [runAutomated] never throws: a failure of a stage, or of the
    append to the log file, is caught inside; the call returns, or it
    waits for ever on a stage that does not end. *)
Theorem runAutomated_never_throws (s : Sys E) :
  fst (runAutomated nowIso env s) = Hang ∨
  ∃ o, fst (runAutomated nowIso env s) = Ok o.
Proof.
  rewrite runAutomated_cases.
  destruct (isBusy (app s)); [right; by eexists|].
  destruct (workerLoaded (app s)); [|right; by eexists].
  unfold run_outcome. cbv zeta.
  destruct (record_stage _ _ _ _) as [[segs|e|] s1];
    [|right; by eexists|by left].
  destruct (merge_stage _ _ _ _) as [[merged|e|] s2];
    [|right; by eexists|by left].
  destruct (mp4_stage _ _ _ _) as [[mp4Out|e|] s3];
    [|right; by eexists|by left].
  destruct (finish_run_eq nowIso (mkRunId env) segs merged mp4Out (tRecord env)
              (tMerge env) (tMp4 env) (tTotal env)
              (snd (after_mp4 nowIso (mkRunId env) mp4Out (tMp4 env) s3)))
    as (Heq & _).
  right. unfold fmap, M_fmap, bind, ret. rewrite Heq. by eexists.
Qed.

(** X4.  Every call of [runAutomated] that returns leaves the page idle:
    each [catch] block and the end of the function call [setIsBusy(false)]. *)
Theorem busy_released (s : Sys E) o s' :
  isBusy (app s) = false →
  runAutomated nowIso env s = (Ok o, s') →
  isBusy (app s') = false.
Proof.
  intros Hbusy. rewrite runAutomated_cases, Hbusy.
  destruct (workerLoaded (app s)); [|by intros [= <- <-]].
  unfold run_outcome. cbv zeta.
  destruct (record_stage _ _ _ _) as [[segs|e|] s1];
    [|by intros [= <- <-]|discriminate].
  destruct (merge_stage _ _ _ _) as [[merged|e|] s2];
    [|by intros [= <- <-]|discriminate].
  destruct (mp4_stage _ _ _ _) as [[mp4Out|e|] s3];
    [|by intros [= <- <-]|discriminate].
  destruct (finish_run_eq nowIso (mkRunId env) segs merged mp4Out (tRecord env)
              (tMerge env) (tMp4 env) (tTotal env)
              (snd (after_mp4 nowIso (mkRunId env) mp4Out (tMp4 env) s3)))
    as (Heq & Hb & _).
  unfold fmap, M_fmap, bind, ret. rewrite Heq. by intros [= <- <-].
Qed.

End PageExtras.

Lemma stage_refused_when_not_loaded_witness :
  let s : Sys SimEngine :=
    {| app := initial_app; worker := sim_worker; sent := [] |} in
  workerConcat sim_now "r1" one_segment s
    = (Throw "FFmpeg worker not loaded.", s) ∧
  workerReencodeMp4 sim_now "r1" {| blob_data := []; blob_type := "" |} s
    = (Throw "FFmpeg worker not loaded.", s).
Proof.
  intros s. apply (stage_refused_when_not_loaded sim_now s). reflexivity.
Defined.

Lemma busy_released_witness :
  isBusy (app (snd (runAutomated sim_now (sim_env clock_steady) sim_page))) = false.
Proof.
  apply (busy_released sim_now (sim_env clock_steady) sim_page (Some sim_record)
           (snd (runAutomated sim_now (sim_env clock_steady) sim_page)));
    vm_compute; reflexivity.
Defined.

Section RunExtras.
Context {E : Type} `{Engine E}.
Variable nowIso : nat → string.
Variable env : RunEnv.

(** X5.  When the recording fails, the run ends there: the exception, as
    [String] renders it, is written to the log pane with the run
    identifier, the page is idle and not recording, and nothing has been
    posted to the worker; the merge is not attempted. *)
Theorem recording_failure_stops_run (s : Sys E) e s1 :
  isBusy (app s) = false → workerLoaded (app s) = true →
  record_stage nowIso env (mkRunId env) (snd (begin_run nowIso (mkRunId env) s))
    = (Throw e, s1) →
  ∃ s', runAutomated nowIso env s = (Ok None, s') ∧
        sent s' = sent s ∧ worker s' = worker s ∧
        isBusy (app s') = false ∧ isRecording (app s') = false ∧
        logs (app s') =
          appendLog (logs (app s1))
            (nowIso (timestamps (app s1)) +:+ " [RUN " +:+ mkRunId env
             +:+ "] Recording failed: " +:+ e).
Proof.
  intros Hbusy Hloaded Hrec.
  rewrite (runAutomated_eq nowIso env s Hbusy Hloaded).
  unfold run_outcome. cbv zeta. rewrite Hrec.
  pose proof (keeps_record_segments (λ s, (sent s, worker s)) nowIso env
                (λ _ _, eq_refl) (mkRunId env) Settings.segmentCount
                Settings.segmentCount (snd (begin_run nowIso (mkRunId env) s)))
    as Hkeep.
  unfold record_stage in Hrec. rewrite Hrec in Hkeep.
  injection Hkeep as Hs Hw.
  eexists. split; [reflexivity|].
  split; [exact Hs|]. split; [exact Hw|]. repeat split; reflexivity.
Qed.

(** X6.  When the append to the selected log file fails, a run that has
    gone through its three stages still ends with its record: the
    exception, as [String] renders it, is written to the log pane after
    the line that reports the end of the run, the file handle is left as
    it was, and the page becomes idle. *)
Theorem append_failure_not_fatal rid segs merged mp4Out tr tm t4 tt h e (s : Sys E) :
  fileHandleRef (app s) = Some h → fh_failure h = Some e →
  let s' := snd (finish_run nowIso rid segs merged mp4Out tr tm t4 tt s) in
  finish_run nowIso rid segs merged mp4Out tr tm t4 tt s =
    (Ok (result_of (nowIso (timestamps (app s))) rid segs merged mp4Out
                   tr tm t4 tt), s') ∧
  fileHandleRef (app s') = Some h ∧ isBusy (app s') = false ∧
  logs (app s') =
    appendLog
      (appendLog (logs (app s))
         (nowIso (S (timestamps (app s))) +:+ " [RUN " +:+ rid
          +:+ "] Done. Total time: " +:+ pretty tt +:+ "ms"))
      (nowIso (S (S (timestamps (app s))))
       +:+ " [ERROR] Failed to append to log file: " +:+ e).
Proof.
  destruct s as [a w snt]. destruct a. cbn [app fileHandleRef].
  intros -> Hw. destruct h as [wr recs]. cbn in Hw. subst wr.
  repeat split; reflexivity.
Qed.

End RunExtras.

Lemma recording_failure_stops_run_witness :
  let env := sim_env_no_camera in
  let s1 := snd (record_stage sim_now env (mkRunId env)
                   (snd (begin_run sim_now (mkRunId env) sim_page))) in
  ∃ s', runAutomated sim_now env sim_page = (Ok None, s') ∧
        sent s' = sent sim_page ∧ worker s' = worker sim_page ∧
        isBusy (app s') = false ∧ isRecording (app s') = false ∧
        logs (app s') =
          appendLog (logs (app s1))
            (sim_now (timestamps (app s1)) +:+ " [RUN " +:+ mkRunId env
             +:+ "] Recording failed: NotAllowedError: Permission denied").
Proof.
  intros env s1.
  apply (recording_failure_stops_run sim_now env sim_page
           "NotAllowedError: Permission denied" s1);
    vm_compute; reflexivity.
Defined.

Lemma append_failure_not_fatal_witness :
  let merged := {| so_blob := {| blob_data := []; blob_type := "video/webm" |};
                   so_mime := "video/webm"; so_bytes := 0 |} in
  finish_run sim_now "r1" [] merged merged 1 2 3 6 sim_page_read_only =
  (Ok (result_of (sim_now (timestamps (app sim_page_read_only))) "r1" [] merged
                 merged 1 2 3 6),
   snd (finish_run sim_now "r1" [] merged merged 1 2 3 6 sim_page_read_only)).
Proof.
  intros merged.
  refine (proj1 (append_failure_not_fatal sim_now "r1" [] merged merged 1 2 3 6
                   {| fh_failure := Some "NoModificationAllowedError: read-only";
                      fh_records := [] |}
                   "NoModificationAllowedError: read-only"
                   sim_page_read_only _ _)); reflexivity.
Defined.

(** ** Further properties of the worker *)

Section Replies.
Context {E : Type} `{Engine E}.

Definition non_terminal (m : WorkerResponse) : Prop := is_terminal m = false.

Definition is_progress (m : WorkerResponse) : Prop :=
  match m with Progress _ => True | _ => False end.

(** [replies N R m]: [m] posts messages that satisfy [N] and then, when
    it returns, one last message, which satisfies [R]. *)
Definition replies (N R : WorkerResponse → Prop) (m : M (Worker E) unit) : Prop :=
  ∀ w, ∃ l, Forall N l ∧
    match m w with
    | (Ok _, w') => ∃ t, R t ∧ posted w' = posted w ++ l ++ [t]
    | (_, w') => posted w' = posted w ++ l
    end.

Lemma replies_post N (R : WorkerResponse → Prop) t : R t → replies N R (post t).
Proof. intros Ht w. exists []. split; [done|]. by exists t. Qed.

Lemma replies_bind N R {A} (m : M (Worker E) A) (k : A → M (Worker E) unit) :
  steps (advance N) m → (∀ a, replies N R (k a)) → replies N R (m ≫= k).
Proof.
  intros Hm Hk w. destruct (Hm w) as (_ & l1 & Hp1 & Hl1). rewrite bind_eq.
  destruct (m w) as [[a|e|] w1]; cbn [snd] in Hp1; [|by exists l1..].
  destruct (Hk a w1) as (l2 & Hl2 & Hk'). exists (l1 ++ l2).
  split; [by apply Forall_app|].
  destruct (k a w1) as [[[]|e|] w2].
  - destruct Hk' as (t & Ht & Hp2). exists t. split; [done|].
    by rewrite Hp2, Hp1, <- !app_assoc.
  - by rewrite Hk', Hp1, app_assoc.
  - by rewrite Hk', Hp1, app_assoc.
Qed.

Lemma replies_concat_branch N req :
  (∀ l, N (Progress l)) →
  replies N (λ t, ∃ data, t = Result (req_outputName req) "video/webm" data
                                     (req_runId req) (req_phase req))
          (concat_branch req).
Proof.
  intros HN. unfold concat_branch.
  repeat first
    [ apply replies_post; by eexists
    | apply replies_bind;
      [ first [ apply steps_forEach; [apply _|intros ?] | idtac ];
        apply steps_call; exact HN
      | intros ? ] ].
Qed.

Lemma replies_reencode_branch N req :
  (∀ l, N (Progress l)) →
  replies N (λ t, ∃ data,
               t = Result (req_outputName req)
                     (if endsWith (req_outputName req) ".mp4"
                      then "video/mp4" else "application/octet-stream")
                     data (req_runId req) (req_phase req))
          (reencode_branch req).
Proof.
  intros HN. unfold reencode_branch.
  repeat first
    [ apply replies_post; by eexists
    | apply replies_bind; [apply steps_call; exact HN|intros ?] ].
Qed.

(** The reply to a stage request: the [result] of its branch. *)
Definition stage_reply (req : WorkerRequest) (t : WorkerResponse) : Prop :=
  ∃ data,
    t = Result (req_outputName req)
          (if String.eqb (req_type req) "concat" then "video/webm"
           else if endsWith (req_outputName req) ".mp4" then "video/mp4"
           else "application/octet-stream")
          data (req_runId req) (req_phase req).

Lemma replies_onmessage_body req :
  req_type req = "concat" ∨ req_type req = "reencode" →
  replies non_terminal (stage_reply req) (ensureLoaded ;; dispatch req).
Proof.
  intros Hty.
  apply replies_bind; [by apply steps_ensureLoaded|intros _].
  unfold dispatch, stage_reply. destruct Hty as [Hty|Hty]; rewrite Hty; cbn.
  - by apply replies_concat_branch.
  - by apply replies_reencode_branch.
Qed.

Lemma stage_request_replies req w :
  req_type req = "concat" ∨ req_type req = "reencode" →
  ∃ l, Forall non_terminal l ∧
    match fst (onmessage_body req w) with
    | Ok _ => ∃ t, stage_reply req t ∧
                   posted (self_onmessage req w) = posted w ++ l ++ [t]
    | Throw message =>
        posted (self_onmessage req w) =
        posted w ++ l ++ [Error message (req_runId req) (req_phase req)]
    | Hang => posted (self_onmessage req w) = posted w ++ l
    end.
Proof.
  intros Hty. destruct (replies_onmessage_body req Hty w) as (l & Hl & Hp).
  exists l. split; [exact Hl|].
  unfold self_onmessage, catch. rewrite onmessage_body_dispatch.
  destruct ((ensureLoaded ;; dispatch req) w) as [[[]|e|] w1]; cbn; [done| |done].
  by rewrite Hp, app_assoc.
Qed.

(** X7.  The worker answers a [concat] or a [reencode] request that ends
    with exactly one terminal message, after the [progress] (and
    [loaded]) messages: a [result] when the handler runs to its end, an
    [error] with the message of the exception otherwise.  Either carries
    the run and the phase of the request.  The result of a [concat] is
    tagged [video/webm]; the result of a [reencode] is tagged [video/mp4]
    when the output name ends in [.mp4], and [application/octet-stream]
    otherwise.  A request that never ends gets no terminal message. *)
Theorem one_reply_per_stage_request req w :
  req_type req = "concat" ∨ req_type req = "reencode" →
  ∃ l, Forall non_terminal l ∧
    match fst (onmessage_body req w) with
    | Ok _ => ∃ t, stage_reply req t ∧
                   posted (self_onmessage req w) = posted w ++ l ++ [t]
    | Throw message =>
        posted (self_onmessage req w) =
        posted w ++ l ++ [Error message (req_runId req) (req_phase req)]
    | Hang => posted (self_onmessage req w) = posted w ++ l
    end.
Proof. exact (stage_request_replies req w). Qed.

End Replies.

Lemma one_reply_per_stage_request_witness :
  let req := concat_request "r1" one_segment in
  ∃ l, Forall non_terminal l ∧
    match fst (onmessage_body req sim_worker) with
    | Ok _ => ∃ t, stage_reply req t ∧
                   posted (self_onmessage req sim_worker)
                   = posted sim_worker ++ l ++ [t]
    | Throw message =>
        posted (self_onmessage req sim_worker) =
        posted sim_worker ++ l ++ [Error message (req_runId req) (req_phase req)]
    | Hang => posted (self_onmessage req sim_worker) = posted sim_worker ++ l
    end.
Proof.
  intros req. apply (one_reply_per_stage_request req sim_worker). by left.
Defined.

Section Loading.
Context {E : Type} `{Engine E}.

Lemma ensureLoaded_listener (w : Worker E) :
  loaded w = false →
  let w1 := snd (ensureLoaded w) in
  listeners w1 = S (listeners w) ∧
  loaded w1 = is_ok (fst (ensureLoaded w)) ∧
  (loaded w1 = false →
   let w2 := snd (ensureLoaded w1) in
   listeners w2 = S (S (listeners w)) ∧
   ∀ A (op : E → outcome A * list string * E),
     posted (snd (call op w2)) =
     posted w2 ++ progress_of (S (S (listeners w))) (snd (fst (op (ffmpeg w2))))).
Proof.
  assert (Hone : ∀ w : Worker E, loaded w = false →
            listeners (snd (ensureLoaded w)) = S (listeners w) ∧
            loaded (snd (ensureLoaded w)) = is_ok (fst (ensureLoaded w))).
  { clear w. intros w Hl. unfold ensureLoaded.
    rewrite gets_bind, Hl. cbv beta iota.
    unfold on_log, set_loaded, post, modify, fetch, call, catch,
      mbind, M_bind, bind. cbn.
    destruct (toBlobURL _ _ (ffmpeg w)) as [[core|e|] e1]; cbn; [|done..].
    destruct (toBlobURL _ _ e1) as [[wasm|e|] e2]; cbn; [|done..].
    destruct (toBlobURL _ _ e2) as [[wrk|e|] e3]; cbn.
    - destruct (ffmpeg_load _ e3) as [[[[]|e|] lines] e4]; cbn; [done| |done].
      by destruct (ffmpeg_load _ e4) as [[[[]|e'|] lines'] e5].
    - by destruct (ffmpeg_load _ e3) as [[[[]|e'|] lines'] e4].
    - done. }
  intros Hl w1. destruct (Hone w Hl) as [Hn Hld].
  split; [exact Hn|]. split; [exact Hld|].
  intros Hl1 w2. destruct (Hone w1 Hl1) as [Hn2 _].
  fold w2 in Hn2. fold w1 in Hn. rewrite Hn in Hn2.
  split; [exact Hn2|]. intros A op. unfold call.
  destruct (op (ffmpeg w2)) as [[r lines] e']. cbn. by rewrite Hn2.
Qed.

(** X8.  Every call of [ensureLoaded] on a worker that is not loaded
    registers one more [log] listener on the FFmpeg instance, whether the
    loading succeeds, throws or never ends, and [loaded] is set exactly
    when the call returns.  After a load that failed and one that
    succeeded the instance has two listeners more than before, so each
    line the engine logs is posted that many times. *)
Theorem ensureLoaded_adds_listener (w : Worker E) :
  loaded w = false →
  let w1 := snd (ensureLoaded w) in
  listeners w1 = S (listeners w) ∧
  loaded w1 = is_ok (fst (ensureLoaded w)) ∧
  (loaded w1 = false →
   let w2 := snd (ensureLoaded w1) in
   listeners w2 = S (S (listeners w)) ∧
   ∀ A (op : E → outcome A * list string * E),
     posted (snd (call op w2)) =
     posted w2 ++ progress_of (S (S (listeners w))) (snd (fst (op (ffmpeg w2))))).
Proof. exact (ensureLoaded_listener w). Qed.

End Loading.

Lemma ensureLoaded_adds_listener_witness :
  let w := {| loaded := false; listeners := 0; ffmpeg := sim_offline;
              posted := [] |} in
  let w1 := snd (ensureLoaded w) in
  listeners w1 = 1 ∧
  loaded w1 = is_ok (fst (ensureLoaded w)) ∧
  (loaded w1 = false →
   let w2 := snd (ensureLoaded w1) in
   listeners w2 = 2 ∧
   ∀ A (op : SimEngine → outcome A * list string * SimEngine),
     posted (snd (call op w2)) =
     posted w2 ++ progress_of 2 (snd (fst (op (ffmpeg w2))))).
Proof.
  intros w. apply (ensureLoaded_adds_listener w). reflexivity.
Defined.

(** *** The suffix test of the [reencode] branch *)

Lemma substring_0_length s : substring 0 (String.length s) s = s.
Proof. induction s as [|c s IH]; cbn; [done|]. f_equal. exact IH. Qed.

Lemma substring_append_skip p suffix :
  substring (String.length p) (String.length suffix) (p +:+ suffix) = suffix.
Proof. induction p as [|c p IH]; cbn; [apply substring_0_length|exact IH]. Qed.

Lemma append_length p s : String.length (p +:+ s) = String.length p + String.length s.
Proof. induction p as [|c p IH]; [done|]. cbn. by rewrite <- IH. Qed.

Lemma substring_split k s :
  k ≤ String.length s →
  s = substring 0 k s +:+ substring k (String.length s - k) s.
Proof.
  revert k. induction s as [|c s IH]; intros [|k] Hk; cbn in *; try lia.
  - done.
  - by rewrite substring_0_length.
  - change (String c s = String c (substring 0 k s +:+
                                  substring k (String.length s - k) s)).
    f_equal. apply IH. lia.
Qed.

(** [s.endsWith(suffix)] holds exactly when [s] is some string followed
    by [suffix]. *)
Lemma endsWith_spec s suffix :
  endsWith s suffix = true ↔ ∃ p, s = p +:+ suffix.
Proof.
  unfold endsWith. rewrite andb_true_iff, Nat.leb_le, String.eqb_eq. split.
  - intros [Hle Hsub].
    exists (substring 0 (String.length s - String.length suffix) s).
    pose proof (substring_split (String.length s - String.length suffix) s
                  ltac:(lia)) as Hs.
    replace (String.length s - (String.length s - String.length suffix))
      with (String.length suffix) in Hs by lia.
    by rewrite Hsub in Hs.
  - intros [p ->]. rewrite append_length. split; [lia|].
    replace (String.length p + String.length suffix - String.length suffix)
      with (String.length p) by lia.
    apply substring_append_skip.
Qed.

Section Mime.
Context {E : Type} `{Engine E}.

(** X9.  The [result] of a [reencode] request that runs to its end is
    tagged [video/mp4] exactly when the output name of the request is
    some string followed by [.mp4]; every other output name gives
    [application/octet-stream]. *)
Theorem reencode_result_mime req (w w' : Worker E) :
  req_type req = "reencode" →
  onmessage_body req w = (Ok tt, w') →
  ∃ mime data,
    last (posted w') = Some (Result (req_outputName req) mime data
                                    (req_runId req) (req_phase req)) ∧
    (mime = "video/mp4" ↔ ∃ p, req_outputName req = p +:+ ".mp4") ∧
    (mime = "video/mp4" ∨ mime = "application/octet-stream").
Proof.
  intros Hty Hbody.
  destruct (stage_request_replies req w (or_intror Hty))
    as (l & _ & Hp).
  assert (Hself : self_onmessage req w = w')
    by (unfold self_onmessage, catch; by rewrite Hbody).
  rewrite Hbody, Hself in Hp. cbn [fst] in Hp.
  destruct Hp as (t & (data & ->) & Hp). rewrite Hty in Hp. cbn in Hp.
  eexists _, data. split; [by rewrite Hp, app_assoc, last_snoc|].
  rewrite <- endsWith_spec.
  destruct (endsWith (req_outputName req) ".mp4"); split; auto; done.
Qed.

End Mime.

Lemma reencode_result_mime_witness :
  let req := reencode_request "r1" {| blob_data := [Byte.x1a]; blob_type := "" |} in
  ∃ mime data,
    last (posted (snd (onmessage_body req sim_worker)))
      = Some (Result (req_outputName req) mime data
                     (req_runId req) (req_phase req)) ∧
    (mime = "video/mp4" ↔ ∃ p, req_outputName req = p +:+ ".mp4") ∧
    (mime = "video/mp4" ∨ mime = "application/octet-stream").
Proof.
  intros req.
  apply (reencode_result_mime req sim_worker (snd (onmessage_body req sim_worker)));
    vm_compute; reflexivity.
Defined.

(** ** The page and the worker: a stage call from end to end *)

Section StageCall.
Context {E : Type} `{Engine E}.
Variable nowIso : nat → string.

Lemma msg_key_non_terminal msg : non_terminal msg → msg_key msg = None.
Proof. by destruct msg. Qed.

Lemma non_terminal_settles_nothing msgs a :
  Forall non_terminal msgs →
  let a' := foldl (λ a msg, w_onmessage nowIso msg a) a msgs in
  pendingRef a' = pendingRef a ∧ promises a' = promises a ∧
  settlements a' = settlements a.
Proof.
  intros Hmsgs. revert a. induction Hmsgs as [|msg msgs Hmsg _ IH]; intros a; [done|].
  cbn. destruct (IH (w_onmessage nowIso msg a)) as (-> & -> & ->).
  apply w_onmessage_unmatched. intros k Hk.
  by rewrite (msg_key_non_terminal msg Hmsg) in Hk.
Qed.

(** X10.  Messages that are neither a [result] nor an [error], that is
    [progress] and [loaded], settle nothing: however many of them the
    page handles, the table of pending promises and the settlements made
    so far stay as they are. *)
Theorem progress_settles_nothing msgs a :
  Forall non_terminal msgs →
  let a' := foldl (λ a msg, w_onmessage nowIso msg a) a msgs in
  pendingRef a' = pendingRef a ∧ promises a' = promises a ∧
  settlements a' = settlements a.
Proof. exact (non_terminal_settles_nothing msgs a). Qed.

(** What a stage function does once the worker is known to be loaded:
    register, post, await. *)
Definition stage_call (key : string) (req : WorkerRequest) : M (Sys E) StageOutput :=
  p ← register key;
  modify (postMessage nowIso req) ;;
  await p.

Definition output_of (mime : string) (data : bytes) : StageOutput :=
  {| so_blob := {| blob_data := data; blob_type := mime |};
     so_mime := mime; so_bytes := N.of_nat (length data) |}.

Lemma stage_call_outcome key req (s : Sys E) :
  key_of (req_runId req) (req_phase req) = key →
  req_type req = "concat" ∨ req_type req = "reencode" →
  posted (worker s) = [] →
  settle_calls (promises (app s)) (app s) = [] →
  let run := stage_call key req s in
  match fst (onmessage_body req (worker s)) with
  | Ok _ =>
      ∃ t mime data, stage_reply req t ∧
        t = Result (req_outputName req) mime data (req_runId req) (req_phase req) ∧
        last (posted (self_onmessage req (worker s))) = Some t ∧
        fst run = Ok (output_of mime data) ∧
        pendingRef (app (snd run)) !! key = None
  | Throw message =>
      fst run = Throw message ∧ pendingRef (app (snd run)) !! key = None
  | Hang =>
      fst run = Hang ∧
      pendingRef (app (snd run)) !! key = Some (promises (app s))
  end.
Proof.
  intros Hkey Hty Hposted Hfresh run.
  destruct (stage_request_replies req (worker s) Hty) as (l & Hl & Hp).
  rewrite Hposted in Hp. cbn [app] in Hp.
  set (p := promises (app s)).
  set (a1 := snd (new_pending key (app s))).
  set (al := foldl (λ a msg, w_onmessage nowIso msg a) a1 l).
  destruct (non_terminal_settles_nothing l a1 Hl) as (Hpend & Hprom & Hsett).
  fold al in Hpend, Hprom, Hsett.
  assert (Hlook : pendingRef al !! key = Some p)
    by (rewrite Hpend; apply lookup_insert_eq).
  assert (Hcalls : settle_calls p al = [])
    by (rewrite (settle_calls_same p a1 al Hsett); exact Hfresh).
  assert (Hrun : ∀ t,
            posted (self_onmessage req (worker s)) = l ++ [t] →
            run = await p
                    {| app := w_onmessage nowIso t al;
                       worker := worker (postMessage nowIso req s);
                       sent := sent s ++ [req] |}).
  { intros t Ht. unfold run, stage_call, register, mbind, M_bind, bind, modify,
      postMessage. cbn. rewrite Ht, foldl_app. reflexivity. }
  assert (Hmatched : ∀ t o,
            msg_key t = Some key → msg_settlement t = Some o →
            settlement_of p (w_onmessage nowIso t al) = Some o ∧
            pendingRef (w_onmessage nowIso t al) !! key = None).
  { intros t o Hk Ho.
    destruct (w_onmessage_matched nowIso t al key p o Hk Ho Hlook) as (Hm & _ & Hs).
    split.
    - by rewrite settlement_of_head, (settle_calls_snoc p p o al _ Hs), Hcalls,
        Nat.eqb_refl.
    - rewrite Hm. apply lookup_delete_eq. }
  destruct (fst (onmessage_body req (worker s))) as [[]|message|].
  - destruct Hp as (t & Ht & Hp). pose proof Ht as (data & Hdata).
    match type of Hdata with _ = Result _ ?m _ _ _ => set (mime := m) in Hdata end.
    rewrite (Hrun t Hp). exists t, mime, data. split; [exact Ht|].
    split; [exact Hdata|]. split; [by rewrite Hp, app_nil_l, last_snoc|].
    destruct (Hmatched t (Resolved (output_of mime data))) as [Hset Hgone].
    { rewrite Hdata. cbn. by rewrite Hkey. }
    { by rewrite Hdata. }
    unfold await. cbn [app]. by rewrite Hset.
  - rewrite (Hrun _ Hp).
    destruct (Hmatched (Error message (req_runId req) (req_phase req))
                (Rejected message)) as [Hset Hgone].
    { cbn. by rewrite Hkey. }
    { done. }
    unfold await. cbn [app]. by rewrite Hset.
  - assert (Hrun' : run = await p {| app := al;
                                     worker := worker (postMessage nowIso req s);
                                     sent := sent s ++ [req] |}).
    { unfold run, stage_call, register, mbind, M_bind, bind, modify, postMessage.
      cbn. by rewrite Hp. }
    rewrite Hrun'. unfold await. cbn [app].
    by rewrite settlement_of_head, Hcalls.
Qed.

(** X11.  [workerConcat] returns what the worker answers.  On a loaded
    page whose worker has nothing left to deliver: when the worker's
    handler runs to its end, the last message it posts is the [result] of
    the request, and the call returns the data of that message as a
    [video/webm] blob, with its size; when the handler throws, the call
    throws the same message; in both cases the key [<runId>:merge] has
    left the table.  When the handler never ends, the call never returns
    and the promise stays in the table. *)
Theorem workerConcat_outcome rid blobs (s : Sys E) :
  workerLoaded (app s) = true → posted (worker s) = [] →
  settle_calls (promises (app s)) (app s) = [] →
  let run := workerConcat nowIso rid blobs s in
  let key := rid +:+ ":merge" in
  match fst (onmessage_body (concat_request rid blobs) (worker s)) with
  | Ok _ =>
      (∃ data,
          last (posted (self_onmessage (concat_request rid blobs) (worker s)))
          = Some (Result "merged.webm" "video/webm" data
                         (Some rid) (Some "merge")) ∧
          fst run = Ok (output_of "video/webm" data)) ∧
      pendingRef (app (snd run)) !! key = None
  | Throw message =>
      fst run = Throw message ∧ pendingRef (app (snd run)) !! key = None
  | Hang => fst run = Hang ∧
            pendingRef (app (snd run)) !! key = Some (promises (app s))
  end.
Proof.
  intros Hloaded Hposted Hfresh run key.
  pose proof (stage_call_outcome key (concat_request rid blobs) s eq_refl
                (or_introl eq_refl) Hposted Hfresh) as Hcall.
  assert (Hrun : run = stage_call key (concat_request rid blobs) s).
  { unfold run, workerConcat. by rewrite gets_bind, Hloaded. }
  rewrite Hrun. cbv zeta in Hcall.
  destruct (fst (onmessage_body _ _)) as [[]|message|]; [|done..].
  destruct Hcall as (t & mime & data & (data' & Ht) & Heq & Hlast & Hok & Hgone).
  split; [|exact Hgone]. exists data. rewrite Hlast, Hok.
  rewrite Heq in Ht. injection Ht as -> _. by rewrite Heq.
Qed.

(** X12.  [workerReencodeMp4] returns what the worker answers, in the
    same way: the data of the [result] that the worker posts last, as a
    [video/mp4] blob; the message of the [error]; or nothing at all.  The
    key is [<runId>:mp4]. *)
Theorem workerReencodeMp4_outcome rid blob (s : Sys E) :
  workerLoaded (app s) = true → posted (worker s) = [] →
  settle_calls (promises (app s)) (app s) = [] →
  let run := workerReencodeMp4 nowIso rid blob s in
  let key := rid +:+ ":mp4" in
  match fst (onmessage_body (reencode_request rid blob) (worker s)) with
  | Ok _ =>
      (∃ data,
          last (posted (self_onmessage (reencode_request rid blob) (worker s)))
          = Some (Result "reencoded.mp4" "video/mp4" data
                         (Some rid) (Some "mp4")) ∧
          fst run = Ok (output_of "video/mp4" data)) ∧
      pendingRef (app (snd run)) !! key = None
  | Throw message =>
      fst run = Throw message ∧ pendingRef (app (snd run)) !! key = None
  | Hang => fst run = Hang ∧
            pendingRef (app (snd run)) !! key = Some (promises (app s))
  end.
Proof.
  intros Hloaded Hposted Hfresh run key.
  pose proof (stage_call_outcome key (reencode_request rid blob) s eq_refl
                (or_intror eq_refl) Hposted Hfresh) as Hcall.
  assert (Hrun : run = stage_call key (reencode_request rid blob) s).
  { unfold run, workerReencodeMp4. by rewrite gets_bind, Hloaded. }
  rewrite Hrun. cbv zeta in Hcall.
  destruct (fst (onmessage_body _ _)) as [[]|message|]; [|done..].
  destruct Hcall as (t & mime & data & (data' & Ht) & Heq & Hlast & Hok & Hgone).
  split; [|exact Hgone]. exists data. rewrite Hlast, Hok.
  rewrite Heq in Ht. injection Ht as -> _. by rewrite Heq.
Qed.

End StageCall.

Lemma progress_settles_nothing_witness :
  let a := page_run sim_now [Registers "r1:merge"] initial_app in
  let a' := foldl (λ a msg, w_onmessage sim_now msg a) a
                  [Loaded; Progress "frame=   30"] in
  pendingRef a' = pendingRef a ∧ promises a' = promises a ∧
  settlements a' = settlements a.
Proof.
  intros a.
  apply (progress_settles_nothing sim_now [Loaded; Progress "frame=   30"] a).
  repeat constructor.
Defined.

Lemma workerConcat_outcome_witness :
  let run := workerConcat sim_now "r1" one_segment sim_page in
  let key := "r1" +:+ ":merge" in
  match fst (onmessage_body (concat_request "r1" one_segment) (worker sim_page)) with
  | Ok _ =>
      (∃ data,
          last (posted (self_onmessage (concat_request "r1" one_segment)
                          (worker sim_page)))
          = Some (Result "merged.webm" "video/webm" data
                         (Some "r1") (Some "merge")) ∧
          fst run = Ok (output_of "video/webm" data)) ∧
      pendingRef (app (snd run)) !! key = None
  | Throw message =>
      fst run = Throw message ∧ pendingRef (app (snd run)) !! key = None
  | Hang => fst run = Hang ∧
            pendingRef (app (snd run)) !! key = Some (promises (app sim_page))
  end.
Proof.
  apply (workerConcat_outcome sim_now "r1" one_segment sim_page);
    vm_compute; reflexivity.
Defined.

Lemma workerReencodeMp4_outcome_witness :
  let blob := {| blob_data := [Byte.x1a; Byte.x45]; blob_type := "video/webm" |} in
  let run := workerReencodeMp4 sim_now "r1" blob sim_page in
  let key := "r1" +:+ ":mp4" in
  match fst (onmessage_body (reencode_request "r1" blob) (worker sim_page)) with
  | Ok _ =>
      (∃ data,
          last (posted (self_onmessage (reencode_request "r1" blob)
                          (worker sim_page)))
          = Some (Result "reencoded.mp4" "video/mp4" data
                         (Some "r1") (Some "mp4")) ∧
          fst run = Ok (output_of "video/mp4" data)) ∧
      pendingRef (app (snd run)) !! key = None
  | Throw message =>
      fst run = Throw message ∧ pendingRef (app (snd run)) !! key = None
  | Hang => fst run = Hang ∧
            pendingRef (app (snd run)) !! key = Some (promises (app sim_page))
  end.
Proof.
  intros blob.
  apply (workerReencodeMp4_outcome sim_now "r1" blob sim_page);
    vm_compute; reflexivity.
Defined.

(** ** Mounting the component *)

Section Mount.
Context {E : Type} `{Engine E}.
Variable nowIso : nat → string.

(** Loading posts [progress] messages and, when it returns, [loaded]. *)
Lemma replies_ensureLoaded (w : Worker E) :
  loaded w = false →
  ∃ l, Forall is_progress l ∧
    match ensureLoaded w with
    | (Ok _, w') => ∃ t, t = Loaded ∧ posted w' = posted w ++ l ++ [t]
    | (_, w') => posted w' = posted w ++ l
    end.
Proof.
  intros Hl. unfold ensureLoaded. rewrite gets_bind, Hl. cbv beta iota.
  refine ((_ : replies is_progress (λ t, t = Loaded) _) w).
  assert (HP : ∀ l, is_progress (Progress l)) by done.
  repeat first
    [ apply replies_post; reflexivity
    | apply replies_bind; [|intros ?]
    | apply steps_catch; [apply _| |intros ?]
    | apply steps_bind; [apply _| |intros ?]
    | apply steps_on_log | apply steps_fetch | apply steps_set_loaded
    | apply steps_call; exact HP ].
Qed.

Lemma foldl_progress_workerLoaded msgs a :
  Forall is_progress msgs →
  workerLoaded (foldl (λ a msg, w_onmessage nowIso msg a) a msgs) = workerLoaded a.
Proof.
  intros Hmsgs. revert a. induction Hmsgs as [|msg msgs Hmsg _ IH]; intros a; [done|].
  cbn. rewrite IH. by destruct msg.
Qed.

(** X13.  When the component is mounted it creates the worker and posts
    [load], and nothing else.  Afterwards the page holds the worker to be
    loaded exactly when the worker is: both flags are set when
    [ensureLoaded] has returned, and both stay false when it has thrown
    or has not ended.  No promise is pending. *)
Theorem mount_outcome (e : E) :
  let w0 := {| loaded := false; listeners := 0; ffmpeg := e; posted := [] |} in
  let s := mount nowIso e in
  sent s = [load_request] ∧ pendingRef (app s) = ∅ ∧
  workerLoaded (app s) = is_ok (fst (ensureLoaded w0)) ∧
  loaded (worker s) = is_ok (fst (ensureLoaded w0)).
Proof.
  intros w0 s. split; [done|].
  destruct (replies_ensureLoaded w0 eq_refl) as (l & Hl & Hp).
  destruct (ensureLoaded_listener w0 eq_refl) as (_ & Hld & _).
  assert (Hnt : Forall non_terminal l).
  { eapply Forall_impl; [exact Hl|]. by intros []. }
  unfold s, mount, postMessage, self_onmessage, catch. cbn [app worker].
  change (onmessage_body load_request) with (ensureLoaded (E:=E)).
  fold w0. destruct (ensureLoaded w0) as [[[]|message|] w1]; cbn [fst snd is_ok] in *.
  - destruct Hp as (t & -> & ->). rewrite !foldl_app. cbn.
    destruct (non_terminal_settles_nothing nowIso l initial_app Hnt) as (Hpend & _).
    by rewrite Hpend.
  - cbn in Hp |- *. rewrite Hp, !foldl_app. cbn.
    destruct (non_terminal_settles_nothing nowIso l initial_app Hnt) as (Hpend & _).
    rewrite Hpend. cbn. split; [exact Hpend|]. split; [|exact Hld].
    by apply foldl_progress_workerLoaded.
  - cbn in Hp |- *. rewrite Hp.
    destruct (non_terminal_settles_nothing nowIso l initial_app Hnt) as (Hpend & _).
    split; [exact Hpend|]. split; [|exact Hld].
    by apply foldl_progress_workerLoaded.
Qed.

End Mount.

(** ** The log pane *)

Fixpoint has_newline (s : string) : bool :=
  match s with
  | EmptyString => false
  | String c s' => Ascii.eqb c "010" || has_newline s'
  end.

Lemma split_newline_nonempty s : split_newline s ≠ [].
Proof.
  destruct s as [|c s]; cbn; [done|].
  destruct (Ascii.eqb c "010"); [done|]. by destruct (split_newline s).
Qed.

(** No line of a split holds a line feed. *)
Lemma split_newline_lines s : Forall (λ l, has_newline l = false) (split_newline s).
Proof.
  induction s as [|c s IH]; cbn; [by repeat constructor|].
  destruct (Ascii.eqb c "010") eqn:Hc; [by constructor|].
  destruct (split_newline s) as [|l ls].
  { constructor; [|done]. cbn. by rewrite Hc. }
  inversion_clear IH as [|? ? Hl Hls]. constructor; [|done]. cbn. by rewrite Hc.
Qed.

Lemma split_newline_line l : has_newline l = false → split_newline l = [l].
Proof.
  induction l as [|c l IH]; cbn; [done|].
  intros [Hc Hl]%orb_false_iff. by rewrite Hc, (IH Hl).
Qed.

Lemma split_newline_append l s :
  has_newline l = false →
  split_newline (l +:+ newline +:+ s) = l :: split_newline s.
Proof.
  induction l as [|c l IH]; [done|]. cbn [has_newline].
  intros [Hc Hl]%orb_false_iff.
  change (String c l +:+ newline +:+ s) with (String c (l +:+ newline +:+ s)).
  cbn [split_newline]. by rewrite Hc, (IH Hl).
Qed.

(** Joining lines with line feeds and splitting again gives the lines
    back. *)
Lemma split_newline_concat ls :
  ls ≠ [] → Forall (λ l, has_newline l = false) ls →
  split_newline (String.concat newline ls) = ls.
Proof.
  induction ls as [|l ls IH]; [done|]. intros _ Hall.
  inversion_clear Hall as [|? ? Hl Hls].
  destruct ls as [|l' ls]; [by apply split_newline_line|].
  change (String.concat newline (l :: l' :: ls))
    with (l +:+ newline +:+ String.concat newline (l' :: ls)).
  rewrite (split_newline_append l _ Hl). f_equal. by apply IH.
Qed.

(** X14.  The log pane keeps the last 350 lines: after a line is
    appended, by [uiLog] or for a [progress] message, the lines of the log
    are the lines of the old log followed by the new one, without the
    oldest ones when there are more than 350; their order is kept. *)
Theorem appendLog_keeps_last_lines prev msg :
  let lines := split_newline (prev +:+ msg +:+ newline) in
  split_newline (appendLog prev msg) = drop (length lines - 350) lines ∧
  length (split_newline (appendLog prev msg)) ≤ 350.
Proof.
  intros lines.
  assert (Heq : split_newline (appendLog prev msg) = drop (length lines - 350) lines).
  { unfold appendLog. fold lines.
    destruct (Nat.ltb_spec 350 (length lines)) as [Hlt|Hle].
    - apply split_newline_concat.
      + intros Hnil. apply (f_equal length) in Hnil.
        rewrite length_drop in Hnil. cbn in Hnil. lia.
      + apply Forall_drop, split_newline_lines.
    - by replace (length lines - 350) with 0 by lia. }
  split; [exact Heq|]. rewrite Heq, length_drop. lia.
Qed.


(** ** The sizes in the record *)

Section Sizes.
Context {E : Type} `{Engine E}.
Variable nowIso : nat → string.
Variable env : RunEnv.

(** The recording loop returns the blobs of the recordings it has made,
    in the order it made them. *)
Lemma record_segments_blobs rid count todo (s : Sys E) segs s' :
  todo ≤ count →
  record_segments nowIso env rid count todo s = (Ok segs, s') →
  Forall2 (λ i bu, recordOneSegment_outcome env i = Ok (fst bu))
          (seq (count - todo) todo) segs.
Proof.
  revert s segs s'.
  induction todo as [|todo IH]; intros s segs s' Hle; cbn [record_segments].
  { intros [= <- _]. constructor. }
  intros Hrun.
  apply bind_Ok in Hrun as ([] & s1 & _ & Hrun).
  apply bind_Ok in Hrun as (b & s2 & Hb & Hrun).
  apply bind_Ok in Hrun as (url & s3 & _ & Hrun).
  apply bind_Ok in Hrun as ([] & s4 & _ & Hrun).
  apply bind_Ok in Hrun as (rest & s5 & Hrest & Hrun).
  injection Hrun as <- _.
  assert (Hout : recordOneSegment_outcome env (count - S todo) = Ok b).
  { unfold recordOneSegment in Hb.
    apply bind_Ok in Hb as ([] & t1 & _ & Hb).
    apply bind_Ok in Hb as (b' & t2 & Hb' & Hb).
    apply bind_Ok in Hb as ([] & t3 & _ & Hb).
    injection Hb as <- _. by injection Hb' as ->. }
  apply IH in Hrest; [|lia]. cbn [seq]. constructor; [exact Hout|].
  by replace (S (count - S todo)) with (count - todo) by lia.
Qed.

(** X15.  In the record of a completed run, [segmentSizesBytes] lists the
    sizes of the four recordings the camera delivered, the first
    recording first; [segmentCount], [segmentDurationMs] and [gapMs]
    are the settings 4, 5000 and 250, and [runId] is the identifier made
    when the run started. *)
Theorem record_segment_sizes (s : Sys E) r s' :
  runAutomated nowIso env s = (Ok (Some r), s') →
  Forall2 (λ i size, ∃ b, recordOneSegment_outcome env i = Ok b ∧
                          size = blob_size b)
          [0; 1; 2; 3] (segmentSizesBytes r) ∧
  segmentCount r = 4 ∧ segmentDurationMs r = 5000 ∧ gapMs r = 250 ∧
  runId r = mkRunId env.
Proof.
  intros Hrun.
  destruct (runAutomated_guards nowIso env s r s' Hrun) as [Hbusy Hloaded].
  rewrite (runAutomated_eq nowIso env s Hbusy Hloaded) in Hrun.
  destruct (run_outcome_Some nowIso env s r s' Hrun)
    as (segs & s1 & merged & s2 & mp4Out & s3 & stamp & Hrec & _ & _ & ->).
  split; [|done]. cbn [segmentSizesBytes result_of].
  apply record_segments_blobs in Hrec; [|done].
  set (idx := [0; 1; 2; 3]). change (seq _ _) with idx in Hrec. clearbody idx.
  clear Hrun.
  induction Hrec as [|i bu idxs rest Hi _ IH]; cbn; [constructor|].
  constructor; [by exists (fst bu)|exact IH].
Qed.

End Sizes.

Lemma record_segment_sizes_witness :
  let env := sim_env clock_steady in
  Forall2 (λ i size, ∃ b, recordOneSegment_outcome env i = Ok b ∧
                          size = blob_size b)
          [0; 1; 2; 3] (segmentSizesBytes sim_record) ∧
  segmentCount sim_record = 4 ∧ segmentDurationMs sim_record = 5000 ∧
  gapMs sim_record = 250 ∧ runId sim_record = mkRunId env.
Proof.
  intros env.
  apply (record_segment_sizes sim_now env sim_page sim_record
           (snd (runAutomated sim_now env sim_page))).
  vm_compute. reflexivity.
Defined.
